(** * pgs_gen: PG-Schema to Cypher generator (src/pgs_gen.py)

    A shallow embedding of the parser, the count reader and the two statement
    generators, followed by the properties proved about them.

    Modelling conventions.
    - A Python [str] is a [string]; a character is a code point below 256 and
      is classified as Python classifies U+0000..U+00FF.
    - A Python [int] is a [Z].
    - [nodes_dict] and [prop_assignments] are iterated, so they are kept as
      insertion-ordered association lists; [counts_map] and [node_ids] are
      only looked up by key and are [gmap]s.
    - An operation that can raise in Python returns a [result]; the program's
      functions live in the corresponding monads.
    - The process-wide random source is an explicit state [rng]: an arbitrary
      infinite sequence of raw draws and a cursor into it.  Every theorem is
      stated for all sequences. *)

From Stdlib Require Import ZArith Lia Ascii String.
From stdpp Require Import gmap strings list pretty.


(** ** Exceptions and the two monads *)

Inductive exn : Type := IndexError | KeyError | ValueError.

Inductive result (A : Type) : Type :=
| Ok (a : A)
| Raise (e : exn).
Arguments Ok {A} a.
Arguments Raise {A} e.

#[global] Instance result_ret : MRet result := fun _ a => Ok a.
#[global] Instance result_bind : MBind result := fun _ _ f m =>
  match m with
  | Ok a => f a
  | Raise e => Raise e
  end.

(** The random source: [draws] is the whole sequence, [pos] the cursor. *)
Record rng : Type := Rng { draws : nat -> nat; pos : nat }.

Definition Gen (A : Type) : Type := rng -> result (A * rng).

#[global] Instance Gen_ret : MRet Gen := fun _ a r => Ok (a, r).
#[global] Instance Gen_bind : MBind Gen := fun _ _ f m r =>
  match m r with
  | Ok (a, r') => f a r'
  | Raise e => Raise e
  end.

Definition throw {A} (e : exn) : Gen A := fun _ => Raise e.

Definition next_draw : Gen nat :=
  fun r => Ok (draws r (pos r), Rng (draws r) (S (pos r))).

(** [for x in l: s = body x s], in either monad. *)
Fixpoint for_each {M : Type -> Type} `{MRet M, MBind M} {A S : Type}
    (l : list A) (body : A -> S -> M S) (s : S) : M S :=
  match l with
  | [] => mret s
  | x :: l' => s' ← body x s; for_each l' body s'
  end.

(** ** Python primitives *)

Module Py.

Definition code (c : ascii) : N := N_of_ascii c.

(** [str.isspace] on one character; also the class [\s] of [re]. *)
Definition isspace (c : ascii) : bool :=
  let n := code c in
  ((9 <=? n) && (n <=? 13) || (28 <=? n) && (n <=? 32)
   || (n =? 133) || (n =? 160))%N.

(** The class [\w] of [re] on [str] patterns: alphanumeric or underscore. *)
Definition isword (c : ascii) : bool :=
  let n := code c in
  ((48 <=? n) && (n <=? 57) || (65 <=? n) && (n <=? 90) || (n =? 95)
   || (97 <=? n) && (n <=? 122)
   || (n =? 170) || (178 <=? n) && (n <=? 179) || (n =? 181)
   || (185 <=? n) && (n <=? 186) || (188 <=? n) && (n <=? 190)
   || (192 <=? n) && (n <=? 214) || (216 <=? n) && (n <=? 246)
   || (248 <=? n))%N.

Definition is_empty (s : string) : bool :=
  match s with "" => true | _ => false end.

Fixpoint lstrip (s : string) : string :=
  match s with
  | String c s' => if isspace c then lstrip s' else s
  | "" => ""
  end.

Fixpoint rstrip (s : string) : string :=
  match s with
  | String c s' =>
      let t := rstrip s' in
      if isspace c && is_empty t then "" else String c t
  | "" => ""
  end.

(** [s.strip()] *)
Definition strip (s : string) : string := rstrip (lstrip s).

(** [s.split(sep)] for a one-character separator. *)
Fixpoint split_on (sep : ascii) (s : string) : list string :=
  match s with
  | "" => [""]
  | String c s' =>
      if Ascii.eqb c sep then "" :: split_on sep s'
      else match split_on sep s' with
           | w :: ws => String c w :: ws
           | [] => [String c ""]
           end
  end.

(** [s.split()]: maximal runs of non-whitespace characters. *)
Fixpoint split (s : string) : list string :=
  match s with
  | "" => []
  | String c s' =>
      if isspace c then split s'
      else match s' with
           | "" => [String c ""]
           | String c' _ =>
               if isspace c' then String c "" :: split s'
               else match split s' with
                    | w :: ws => String c w :: ws
                    | [] => [String c ""]
                    end
           end
  end.

(** [s.upper()] character by character.  The upper-case forms of U+00B5
    and U+00FF lie above U+00FF; those two characters are left as they
    are.  A form and its original are both outside ASCII, so a comparison
    of the result with an ASCII literal, the only use the program makes of
    [upper], is not affected. *)
Definition upper_char (c : ascii) : string :=
  let n := code c in
  if ((97 <=? n) && (n <=? 122))%N then String (ascii_of_N (n - 32)) ""
  else if (n =? 223)%N then "SS"
  else if ((224 <=? n) && (n <=? 254) && negb (n =? 247))%N
       then String (ascii_of_N (n - 32)) ""
  else String c "".

Fixpoint upper (s : string) : string :=
  match s with
  | "" => ""
  | String c s' => upper_char c +:+ upper s'
  end.

(** [sep.join(l)] *)
Fixpoint join (sep : string) (l : list string) : string :=
  match l with
  | [] => ""
  | [x] => x
  | x :: l' => x +:+ sep +:+ join sep l'
  end.

Fixpoint contains (c : ascii) (s : string) : bool :=
  match s with
  | "" => false
  | String c' s' => Ascii.eqb c c' || contains c s'
  end.

(** The double quote character. *)
Definition dquote : ascii := ascii_of_N 34.

Definition hex_digit (n : N) : ascii :=
  if (n <? 10)%N then ascii_of_N (48 + n) else ascii_of_N (87 + n).

(** One character inside [repr] of a [str] quoted with [q]. *)
Definition repr_char (q c : ascii) : string :=
  let n := code c in
  if Ascii.eqb c q || Ascii.eqb c "\" then String "\" (String c "")
  else if (n =? 9)%N then "\t"
  else if (n =? 10)%N then "\n"
  else if (n =? 13)%N then "\r"
  else if ((n <? 32) || (127 <=? n) && (n <=? 160) || (n =? 173))%N
       then String "\" (String "x"
              (String (hex_digit (n / 16)) (String (hex_digit (n mod 16)) "")))
  else String c "".

Fixpoint repr_body (q : ascii) (s : string) : string :=
  match s with
  | "" => ""
  | String c s' => repr_char q c +:+ repr_body q s'
  end.

(** [repr(s)] for a [str]: single quotes unless [s] holds a single quote
    and no double quote. *)
Definition repr_str (s : string) : string :=
  let q : ascii := if contains "'" s && negb (contains dquote s)
                   then dquote else "'"%char in
  String q (repr_body q s +:+ String q "").

(** [range(n)] *)
Definition range (n : Z) : list Z :=
  (fun i => Z.of_nat i) <$> seq 0 (Z.to_nat n).

Definition digit_val (c : ascii) : option Z :=
  let n := code c in
  if ((48 <=? n) && (n <=? 57))%N then Some (Z.of_N (n - 48)) else None.

(** Digits of a decimal literal after the first one; an underscore is
    allowed between two digits. *)
Fixpoint int_digits (acc : Z) (s : string) : option Z :=
  match s with
  | "" => Some acc
  | String c s' =>
      match digit_val c with
      | Some d => int_digits (10 * acc + d) s'
      | None =>
          if Ascii.eqb c "_" then
            match s' with
            | String c' s'' =>
                match digit_val c' with
                | Some d => int_digits (10 * acc + d) s''
                | None => None
                end
            | "" => None
            end
          else None
      end
  end.

Definition int_unsigned (s : string) : option Z :=
  match s with
  | String c s' =>
      match digit_val c with
      | Some d => int_digits d s'
      | None => None
      end
  | "" => None
  end.

(** [int(s)] for a [str]: surrounding whitespace, an optional sign, decimal
    digits.  [ValueError] otherwise.  (The interpreter's configurable cap on
    the number of digits is not modelled.) *)
Definition int (s : string) : result Z :=
  let body :=
    match strip s with
    | String "-" s' => Z.opp <$> int_unsigned s'
    | String "+" s' => int_unsigned s'
    | s' => int_unsigned s'
    end in
  match body with
  | Some z => Ok z
  | None => Raise ValueError
  end.

End Py.

(** ** Insertion-ordered dictionaries

    A Python [dict] that the program iterates: keys are unique, a new key goes
    to the end, an assignment to an existing key keeps its place. *)

Module Dict.

Definition t (V : Type) : Type := list (string * V).

Definition keys {V} (d : t V) : list string := fst <$> d.

Fixpoint get {V} (d : t V) (k : string) : option V :=
  match d with
  | [] => None
  | (k', v) :: d' => if String.eqb k' k then Some v else get d' k
  end.

(** [d[k] = v] *)
Fixpoint set {V} (d : t V) (k : string) (v : V) : t V :=
  match d with
  | [] => [(k, v)]
  | (k', v') :: d' =>
      if String.eqb k' k then (k', v) :: d' else (k', v') :: set d' k v
  end.

End Dict.

(** ** The fragment of [re] the two patterns use

    A pattern is a sequence of items: a literal character, or a greedy
    repetition [c*] or [c+] of a character class, possibly a capturing group.
    Matching is by backtracking, longest repetition first, as [re] does it. *)

Module Re.

Inductive item : Type :=
| Lit (c : ascii)
| Star (cls : ascii -> bool) (group : bool)
| Plus (cls : ascii -> bool) (group : bool).

Definition pattern : Type := list item.

(** [cls*] followed by the rest of the pattern [k]: the text taken by the
    repetition and what [k] returns. *)
Fixpoint star {R} (cls : ascii -> bool) (k : string -> option R)
    (s : string) : option (string * R) :=
  let stop := r ← k s; Some ("", r) in
  match s with
  | String ch s' =>
      if cls ch then
        match star cls k s' with
        | Some (w, r) => Some (String ch w, r)
        | None => stop
        end
      else stop
  | "" => stop
  end.

Definition add_group (group : bool) (w : string) (gs : list string)
    : list string :=
  if group then w :: gs else gs.

(** Match the pattern at the start of [s]; the groups, in order. *)
Fixpoint match_here (p : pattern) (s : string) : option (list string) :=
  match p with
  | [] => Some []
  | Lit c :: p' =>
      match s with
      | String ch s' => if Ascii.eqb ch c then match_here p' s' else None
      | "" => None
      end
  | Star cls group :: p' =>
      '(w, gs) ← star cls (match_here p') s; Some (add_group group w gs)
  | Plus cls group :: p' =>
      match s with
      | String ch s' =>
          if cls ch then
            '(w, gs) ← star cls (match_here p') s';
            Some (add_group group (String ch w) gs)
          else None
      | "" => None
      end
  end.

(** The number of capturing groups of a pattern. *)
Fixpoint groups (p : pattern) : nat :=
  match p with
  | [] => 0
  | Lit _ :: p' => groups p'
  | Star _ group :: p' | Plus _ group :: p' =>
      (if group then 1 else 0) + groups p'
  end.

(** [p.search(s)]: the leftmost match; its [groups()]. *)
Fixpoint search (p : pattern) (s : string) : option (list string) :=
  match match_here p s with
  | Some gs => Some gs
  | None =>
      match s with
      | String _ s' => search p s'
      | "" => None
      end
  end.

End Re.

(** ** The schema parser *)

Record node_info : Type := NodeInfo {
  external_label : string;
  properties : list (string * string)
}.

(** [(rel_internal_label, start_internal_label, end_internal_label,
     rel_external_label)] *)
Definition relationship : Type := string * string * string * string.

Definition s_ : Re.item := Re.Star Py.isspace false.
Definition w_ : Re.item := Re.Plus Py.isword true.
Definition not_rbrace (c : ascii) : bool := negb (Ascii.eqb c "}").

(** The node pattern of line 37, its items separated by blanks:
    [\( \s* (\w+) \s* : \s* (\w+) \s* \{ \s* ( [^}]* ) \s* } \s* \)] *)
Definition node_pattern : Re.pattern :=
  [Re.Lit "("; s_; w_; s_; Re.Lit ":"; s_; w_; s_; Re.Lit "{"; s_;
   Re.Star not_rbrace true; s_; Re.Lit "}"; s_; Re.Lit ")"].

(** The relationship pattern of line 41, its items separated by blanks:
    [\( \s* : \s* (\w+) \s* \) \s* - \[ \s* (\w+) \s* : \s* (\w+) \s* \] - >
     \( \s* : \s* (\w+) \s* \)] *)
Definition relationship_pattern : Re.pattern :=
  [Re.Lit "("; s_; Re.Lit ":"; s_; w_; s_; Re.Lit ")"; s_;
   Re.Lit "-"; Re.Lit "["; s_; w_; s_; Re.Lit ":"; s_; w_; s_; Re.Lit "]";
   Re.Lit "-"; Re.Lit ">";
   Re.Lit "("; s_; Re.Lit ":"; s_; w_; s_; Re.Lit ")"].

(** Lines 61-66: one entry of the property block. *)
Definition parse_pair (pair : string) (properties : list (string * string))
    : result (list (string * string)) :=
  let parts := Py.split pair in
  if (2 <=? length parts)%nat then
    match parts !! 0%nat, parts !! 1%nat with
    | Some p0, Some p1 => Ok (properties ++ [(Py.strip p0, Py.strip p1)])
    | _, _ => Raise IndexError
    end
  else Ok properties.

(** Lines 57-66. *)
Definition parse_properties (properties_str : string)
    : result (list (string * string)) :=
  if Py.is_empty (Py.strip properties_str) then Ok []
  else
    let prop_pairs := Py.strip <$> Py.split_on "," properties_str in
    for_each prop_pairs parse_pair [].

Definition parse_state : Type := Dict.t node_info * list relationship.

(** The body of the loop over the lines, lines 49-76. *)
Definition parse_line (line : string) (st : parse_state) : result parse_state :=
  let '(nodes_dict, relationships_list) := st in
  let line := Py.strip line in
  if Py.is_empty line then Ok st
  else
    nodes_dict ←
      match Re.search node_pattern line with
      | Some groups =>
          match groups with
          | [internal_label; external_label; properties_str] =>
              properties ← parse_properties properties_str;
              Ok (Dict.set nodes_dict internal_label
                    (NodeInfo external_label properties))
          | _ => Raise ValueError
          end
      | None => Ok nodes_dict
      end;
    relationships_list ←
      match Re.search relationship_pattern line with
      | Some groups =>
          match groups with
          | [start_label; internal_rel_label; external_rel_label; end_label] =>
              Ok (relationships_list ++
                    [(internal_rel_label, start_label, end_label,
                      external_rel_label)])
          | _ => Raise ValueError
          end
      | None => Ok relationships_list
      end;
    Ok (nodes_dict, relationships_list).

Definition newline : ascii := ascii_of_N 10.

Definition parse_pg_schema (schema_text : string) : result parse_state :=
  for_each (Py.split_on newline schema_text) parse_line ([], []).

(** ** The [random] module over the explicit source *)

(** [seq[i]] *)
Definition getitem {A} (l : list A) (i : nat) : Gen A :=
  match l !! i with
  | Some x => mret x
  | None => throw IndexError
  end.

(** [random.choice(seq)]; [IndexError] on an empty sequence. *)
Definition random_choice {A} (l : list A) : Gen A :=
  x ← next_draw; getitem l (x mod length l).

Fixpoint random_choices_n {A} (population : list A) (k : nat) : Gen (list A) :=
  match k with
  | O => mret []
  | S k' =>
      c ← random_choice population;
      cs ← random_choices_n population k';
      mret (c :: cs)
  end.

(** [random.choices(population, k=k)] *)
Definition random_choices {A} (population : list A) (k : Z) : Gen (list A) :=
  random_choices_n population (Z.to_nat k).

(** [random.randint(a, b)]; [ValueError] on an empty range. *)
Definition random_randint (a b : Z) : Gen Z :=
  if (a <=? b)%Z then
    x ← next_draw; mret (a + Z.of_nat x mod (b - a + 1))%Z
  else throw ValueError.

(** [string.ascii_uppercase] *)
Definition ascii_uppercase : list ascii :=
  list_ascii_of_string "ABCDEFGHIJKLMNOPQRSTUVWXYZ".

(** Lines 11-13; the default [length] is 8. *)
Definition generate_random_string (length : Z) : Gen string :=
  cs ← random_choices ascii_uppercase length;
  mret (string_of_list_ascii cs).

(** Lines 15-17; the defaults are 1 and 1000. *)
Definition generate_random_int (min_val max_val : Z) : Gen Z :=
  random_randint min_val max_val.

(** ** The node generator *)

(** A generated property value: a [str] or an [int]. *)
Inductive value : Type :=
| VStr (s : string)
| VInt (z : Z).

(** [repr(v)] *)
Definition repr (v : value) : string :=
  match v with
  | VStr s => Py.repr_str s
  | VInt z => pretty z
  end.

(** [d[k]] on a [gmap]; [KeyError] when the key is absent. *)
Definition lookup_key {V} (m : gmap string V) (k : string) : Gen V :=
  match m !! k with
  | Some v => mret v
  | None => throw KeyError
  end.

(** [k in d] *)
Definition has_key {V} (m : gmap string V) (k : string) : bool :=
  match m !! k with
  | Some _ => true
  | None => false
  end.

(** Lines 104-110: the value of one property. *)
Definition assign_property (prop : string * string)
    (prop_assignments : Dict.t value) : Gen (Dict.t value) :=
  let '(prop_name, prop_type) := prop in
  if String.eqb (Py.upper prop_type) "STRING" then
    v ← generate_random_string 8;
    mret (Dict.set prop_assignments prop_name (VStr v))
  else if String.eqb (Py.upper prop_type) "INT" then
    v ← generate_random_int 1 1000;
    mret (Dict.set prop_assignments prop_name (VInt v))
  else
    v ← generate_random_string 8;
    mret (Dict.set prop_assignments prop_name (VStr v)).

(** [f"{node_label}_{i}"] *)
Definition node_id_of (node_label : string) (i : Z) : string :=
  node_label +:+ "_" +:+ pretty i.

(** [f"{k}: {repr(v)}"] *)
Definition prop_entry (kv : string * value) : string :=
  fst kv +:+ ": " +:+ repr (snd kv).

(** Lines 117-120. *)
Definition node_statement (node_id external_label : string)
    (prop_assignments : Dict.t value) : string :=
  let prop_list_str := Py.join ", " (prop_entry <$> prop_assignments) in
  "CREATE (" +:+ node_id +:+ ":" +:+ external_label +:+ " { "
    +:+ prop_list_str +:+ " });".

Definition node_state : Type := list string * gmap string (list string).

(** Lines 102-121: the body of the loop over [range(node_count)]. *)
Definition node_instance (node_label : string) (info : node_info) (i : Z)
    (st : node_state) : Gen node_state :=
  let '(statements, node_ids) := st in
  prop_assignments ← for_each (properties info) assign_property [];
  let node_id := node_id_of node_label i in
  ids ← lookup_key node_ids node_label;
  let node_ids := <[node_label := ids ++ [node_id]]> node_ids in
  let statement :=
    node_statement node_id (external_label info) prop_assignments in
  mret (statements ++ [statement], node_ids).

(** [counts_map.get(label, default_count)] *)
Definition resolve_count (counts_map : gmap string Z) (default_count : Z)
    (label : string) : Z :=
  default default_count (counts_map !! label).

(** Lines 95-121: the body of the loop over [nodes_dict.items()]. *)
Definition node_type (counts_map : gmap string Z) (default_count : Z)
    (item : string * node_info) (st : node_state) : Gen node_state :=
  let '(node_label, info) := item in
  let node_count := resolve_count counts_map default_count node_label in
  for_each (Py.range node_count) (node_instance node_label info) st.

(** [{label: [] for label in nodes_dict}] *)
Definition empty_node_ids (nodes_dict : Dict.t node_info)
    : gmap string (list string) :=
  foldl (fun m label => <[label := []]> m) ∅ (Dict.keys nodes_dict).

Definition generate_cypher_for_nodes (nodes_dict : Dict.t node_info)
    (counts_map : gmap string Z) (default_count : Z) : Gen node_state :=
  for_each nodes_dict (node_type counts_map default_count)
    ([], empty_node_ids nodes_dict).

(** ** The relationship generator *)

Definition is_nil {A} (l : list A) : bool :=
  match l with [] => true | _ => false end.

(** [f"CREATE ({s_node})-[:{external_rel_label}]->({e_node});"] *)
Definition rel_statement (s_node external_rel_label e_node : string) : string :=
  "CREATE (" +:+ s_node +:+ ")-[:" +:+ external_rel_label +:+ "]->("
    +:+ e_node +:+ ");".

(** Lines 148-155: one attempt. *)
Definition rel_attempt (possible_starts possible_ends : list string)
    (external_rel_label : string) (_i : Z) (statements : list string)
    : Gen (list string) :=
  if is_nil possible_starts || is_nil possible_ends then mret statements
  else
    s_node ← random_choice possible_starts;
    e_node ← random_choice possible_ends;
    if negb (String.eqb s_node e_node) then
      mret (statements ++ [rel_statement s_node external_rel_label e_node])
    else mret statements.

(** Lines 137-155: the body of the loop over [relationships_list]. *)
Definition rel_type (node_ids : gmap string (list string))
    (counts_map : gmap string Z) (default_count : Z)
    (rel : relationship) (statements : list string) : Gen (list string) :=
  let '(internal_rel_label, start_label, end_label, external_rel_label) := rel in
  let rel_count := resolve_count counts_map default_count internal_rel_label in
  if negb (has_key node_ids start_label) || negb (has_key node_ids end_label)
  then mret statements
  else
    possible_starts ← lookup_key node_ids start_label;
    possible_ends ← lookup_key node_ids end_label;
    for_each (Py.range rel_count)
      (rel_attempt possible_starts possible_ends external_rel_label) statements.

Definition generate_cypher_for_relationships
    (relationships_list : list relationship)
    (node_ids : gmap string (list string))
    (counts_map : gmap string Z) (default_count : Z) : Gen (list string) :=
  for_each relationships_list (rel_type node_ids counts_map default_count) [].

(** ** The count reader *)

(** Lines 172-180: one row of the reader. *)
Definition read_row (row : list string) (counts_map : gmap string Z)
    : result (gmap string Z) :=
  if (length row <? 2)%nat then Ok counts_map
  else
    match row !! 0%nat, row !! 1%nat with
    | Some r0, Some r1 =>
        let label_name := Py.strip r0 in
        match Py.int (Py.strip r1) with
        | Ok count_value => Ok (<[label_name := count_value]> counts_map)
        | Raise ValueError => Ok counts_map
        | Raise e => Raise e
        end
    | _, _ => Raise IndexError
    end.

(** Lines 159-181.  The argument is what the path holds: [None] when it is
    not a file, otherwise the rows that [csv.reader] yields.  The result is
    the returned mapping: the warning printed for a path that is not a file
    is not part of it, and a failure of [open] or of [csv.reader] while the
    file is read is outside the model, which starts from the rows read. *)
Definition read_csv_counts (file : option (list (list string)))
    : result (gmap string Z) :=
  match file with
  | None => Ok ∅
  | Some rows => for_each rows read_row ∅
  end.

(** ** The driver *)

(** A computation that does not use the random source. *)
Definition lift {A} (m : result A) : Gen A :=
  fun r => match m with Ok a => Ok (a, r) | Raise e => Raise e end.

(** Lines 183-234, without the file and terminal input and output:
    [schema_text] is the content of the schema file, [nodes] and [edges] the
    values of [-n] and [-e] ([None] when the option is not given), [csv] the
    file behind a non-empty [-c] ([None] when the option is not given or
    empty).  The result is the two lists of statements that are printed; the
    two header lines and the warning of the count reader are not part of
    it. *)
Definition main (schema_text : string) (nodes edges : option Z)
    (csv : option (option (list (list string))))
    : Gen (list string * list string) :=
  let default_nodes_count := default 4%Z nodes in
  let default_edges_count := default 4%Z edges in
  '(nodes_dict, relationships_list) ← lift (parse_pg_schema schema_text);
  csv_counts_map ←
    match csv with
    | Some file => lift (read_csv_counts file)
    | None => mret ∅
    end;
  '(node_statements, node_ids) ←
    generate_cypher_for_nodes nodes_dict csv_counts_map default_nodes_count;
  relationship_statements ←
    generate_cypher_for_relationships relationships_list node_ids
      csv_counts_map default_edges_count;
  mret (node_statements, relationship_statements).

(** ** What the relationship generator does, attempt by attempt

    The generator returns only the statements.  The trace below follows the
    same two loops and records, for every relationship type, which branch was
    taken: the [continue] of line 142, taken once for the type, or the inner
    loop, with one entry for each of its iterations: the [continue] of line
    149, or the two identifiers sampled at lines 150-151. *)

Inductive attempt : Type :=
| Skipped
| Sampled (s_node e_node : string).

Inductive rel_outcome : Type :=
| Undeclared
| Attempts (l : list attempt).

(** [[f x for x in l]] with [f] in [Gen]. *)
Fixpoint map_gen {A B} (f : A -> Gen B) (l : list A) : Gen (list B) :=
  match l with
  | [] => mret []
  | x :: l' => y ← f x; ys ← map_gen f l'; mret (y :: ys)
  end.

Definition trace_attempt (possible_starts possible_ends : list string)
    (_i : Z) : Gen attempt :=
  if is_nil possible_starts || is_nil possible_ends then mret Skipped
  else
    s_node ← random_choice possible_starts;
    e_node ← random_choice possible_ends;
    mret (Sampled s_node e_node).

Definition trace_type (node_ids : gmap string (list string))
    (counts_map : gmap string Z) (default_count : Z)
    (rel : relationship) : Gen rel_outcome :=
  let '(internal_rel_label, start_label, end_label, external_rel_label) := rel in
  let rel_count := resolve_count counts_map default_count internal_rel_label in
  if negb (has_key node_ids start_label) || negb (has_key node_ids end_label)
  then mret Undeclared
  else
    possible_starts ← lookup_key node_ids start_label;
    possible_ends ← lookup_key node_ids end_label;
    l ← map_gen (trace_attempt possible_starts possible_ends)
          (Py.range rel_count);
    mret (Attempts l).

Definition trace_relationships (relationships_list : list relationship)
    (node_ids : gmap string (list string))
    (counts_map : gmap string Z) (default_count : Z)
    : Gen (list rel_outcome) :=
  map_gen (trace_type node_ids counts_map default_count) relationships_list.

(** The statements an attempt, and a relationship type, contribute. *)
Definition attempt_statements (external_rel_label : string) (a : attempt)
    : list string :=
  match a with
  | Skipped => []
  | Sampled s_node e_node =>
      if negb (String.eqb s_node e_node)
      then [rel_statement s_node external_rel_label e_node]
      else []
  end.

Definition outcome_statements (rel : relationship) (o : rel_outcome)
    : list string :=
  match o with
  | Undeclared => []
  | Attempts l => l ≫= attempt_statements (snd rel)
  end.

Definition is_self_loop (a : attempt) : bool :=
  match a with
  | Sampled s_node e_node => String.eqb s_node e_node
  | Skipped => false
  end.

(** The attempts whose two sampled identifiers are identical. *)
Definition self_loops (l : list attempt) : nat :=
  length (filter (fun a => is_self_loop a = true) l).

(** How often the emptiness guard of line 148 was evaluated for a type. *)
Definition guard_evaluations (o : rel_outcome) : nat :=
  match o with
  | Undeclared => 0
  | Attempts l => length l
  end.

(** The identifiers generated for a label: none when the label is no key. *)
Definition ids_of (node_ids : gmap string (list string)) (label : string)
    : list string :=
  default [] (node_ids !! label).

Definition rel_internal (rel : relationship) : string := rel.1.1.1.
Definition rel_start (rel : relationship) : string := rel.1.1.2.
Definition rel_end (rel : relationship) : string := rel.1.2.
Definition rel_external (rel : relationship) : string := rel.2.

(** ** Vocabulary of the statements below *)

(** The source after [n] more draws. *)
Definition advance (n : nat) (r : rng) : rng := Rng (draws r) (n + pos r).

Fixpoint all_chars (P : ascii -> bool) (s : string) : bool :=
  match s with
  | "" => true
  | String c s' => P c && all_chars P s'
  end.

Definition is_ascii_upper (c : ascii) : bool :=
  ((65 <=? Py.code c) && (Py.code c <=? 90))%N.

(** The branch of lines 105-110 a type string takes. *)
Inductive kind : Type := KString | KInt.

Definition kind_of (prop_type : string) : kind :=
  if String.eqb (Py.upper prop_type) "STRING" then KString
  else if String.eqb (Py.upper prop_type) "INT" then KInt
  else KString.

(** A value as the claim describes it for a kind, with its literal. *)
Definition value_ok (k : kind) (v : value) : Prop :=
  match k with
  | KString =>
      exists s, v = VStr s /\ String.length s = 8%nat
        /\ all_chars is_ascii_upper s = true
        /\ repr v = "'" +:+ s +:+ "'"
  | KInt =>
      exists z, v = VInt z /\ (1 <= z <= 1000)%Z /\ repr v = pretty z
  end.

(** [d[n] = v] for the names and values in turn, from the empty dict. *)
Definition assign_all (names : list string) (vals : list value)
    : Dict.t value :=
  foldl (fun d nv => Dict.set d nv.1 nv.2) [] (zip names vals).

(** The statement of instance [i] of a node type, for some values that fit
    the declared types. *)
Definition instance_statement (label : string) (info : node_info) (i : Z)
    (stmt : string) : Prop :=
  exists vals,
    Forall2 (fun p v => value_ok (kind_of p.2) v) (properties info) vals
    /\ stmt = node_statement (node_id_of label i) (external_label info)
               (assign_all (properties info).*1 vals).

(** The statements one node type contributes: one for each index below its
    resolved count, in order. *)
Definition block_ok (counts_map : gmap string Z) (default_count : Z)
    (item : string * node_info) (block : list string) : Prop :=
  Forall2 (instance_statement item.1 item.2)
    (Py.range (resolve_count counts_map default_count item.1)) block.

(** The identifiers generated under [label] by the items of [nodes_dict]. *)
Definition ids_for (counts_map : gmap string Z) (default_count : Z)
    (label : string) (nodes_dict : Dict.t node_info) : list string :=
  nodes_dict ≫= fun item =>
    if String.eqb item.1 label
    then node_id_of label <$> Py.range (resolve_count counts_map default_count label)
    else [].

(** An attempt that sampled its two identifiers from the given lists. *)
Definition sampled_from (possible_starts possible_ends : list string)
    (a : attempt) : Prop :=
  exists s_node e_node,
    a = Sampled s_node e_node
    /\ s_node ∈ possible_starts /\ e_node ∈ possible_ends.

(** What the trace of one relationship type looks like, by the three cases
    of lines 141-149. *)
Definition outcome_ok (node_ids : gmap string (list string))
    (counts_map : gmap string Z) (default_count : Z)
    (rel : relationship) (o : rel_outcome) : Prop :=
  let attempts :=
    Z.to_nat (resolve_count counts_map default_count (rel_internal rel)) in
  match node_ids !! rel_start rel, node_ids !! rel_end rel with
  | Some possible_starts, Some possible_ends =>
      if is_nil possible_starts || is_nil possible_ends
      then o = Attempts (replicate attempts Skipped)
      else exists l, o = Attempts l /\ length l = attempts
             /\ Forall (sampled_from possible_starts possible_ends) l
  | _, _ => o = Undeclared
  end.

(** What one entry of the property block contributes: the first two of its
    whitespace-separated tokens, or nothing when it has fewer than two. *)
Definition pair_entry (pair : string) : option (string * string) :=
  match Py.split pair with
  | p0 :: p1 :: _ => Some (Py.strip p0, Py.strip p1)
  | _ => None
  end.

(** [s] is empty or starts with a character outside the class: a greedy
    repetition of the class takes nothing from it. *)
Definition head_fails (cls : ascii -> bool) (s : string) : Prop :=
  match s with
  | "" => True
  | String ch _ => cls ch = false
  end.

(** A node declaration with an empty property block; the [ws] are runs of
    whitespace. *)
Definition empty_node_line (ws1 a ws2 ws3 b ws4 ws5 ws6 : string) : string :=
  "(" +:+ ws1 +:+ a +:+ ws2 +:+ ":" +:+ ws3 +:+ b +:+ ws4 +:+ "{" +:+ ws5
    +:+ "}" +:+ ws6 +:+ ")".

(** [node_id] is the identifier of an instance whose statement is among
    [node_statements]. *)
Definition created (node_statements : list string) (node_id : string) : Prop :=
  exists label info i stmt,
    stmt ∈ node_statements
    /\ node_id = node_id_of label i
    /\ instance_statement label info i stmt.

(** The binding a row of the count file contributes: the stripped first
    column and the integer of the second, or nothing. *)
Definition row_binding (row : list string) : option (string * Z) :=
  match row with
  | r0 :: r1 :: _ =>
      match Py.int (Py.strip r1) with
      | Ok z => Some (Py.strip r0, z)
      | Raise _ => None
      end
  | _ => None
  end.

(** A relationship declaration; the [ws] are runs of whitespace, at the
    places where the pattern allows them. *)
Definition relationship_line
    (ws1 ws2 s ws3 ws4 ws5 i ws6 ws7 e ws8 ws9 ws10 t ws11 : string) : string :=
  "(" +:+ ws1 +:+ ":" +:+ ws2 +:+ s +:+ ws3 +:+ ")" +:+ ws4 +:+ "-" +:+ "["
    +:+ ws5 +:+ i +:+ ws6 +:+ ":" +:+ ws7 +:+ e +:+ ws8 +:+ "]" +:+ "-"
    +:+ ">" +:+ "(" +:+ ws9 +:+ ":" +:+ ws10 +:+ t +:+ ws11 +:+ ")".

(** A node declaration with the property block [block]. *)
Definition node_line (ws1 a ws2 ws3 b ws4 ws5 block ws6 : string) : string :=
  "(" +:+ ws1 +:+ a +:+ ws2 +:+ ":" +:+ ws3 +:+ b +:+ ws4 +:+ "{" +:+ ws5
    +:+ block +:+ "}" +:+ ws6 +:+ ")".

(** The properties lines 57-66 read in the text between the braces. *)
Definition block_properties (properties_str : string)
    : list (string * string) :=
  if Py.is_empty (Py.strip properties_str) then []
  else omap pair_entry (Py.strip <$> Py.split_on "," properties_str).

(** A token of a property block: not empty, without whitespace, comma,
    closing brace or opening parenthesis. *)
Definition token_char (c : ascii) : bool :=
  negb (Py.isspace c) && negb (Ascii.eqb c ",") && negb (Ascii.eqb c "}")
  && negb (Ascii.eqb c "(").

Definition token (s : string) : Prop :=
  s <> "" /\ all_chars token_char s = true.

(** A property block written out: [name type, name type, ...]. *)
Definition render_block (props : list (string * string)) : string :=
  Py.join ", " ((fun p => p.1 +:+ " " +:+ p.2) <$> props).

(** The draws behind a value.  [letter n] is the letter a draw [n] selects
    in the 26 upper-case letters, [letters_from d q k] the letters that [k]
    consecutive draws of the sequence [d] select from draw [q] on, and
    [rank c] a draw that selects the upper-case letter [c]. *)
Definition letter (n : nat) : ascii := ascii_of_nat (65 + n mod 26).

Fixpoint letters_from (d : nat -> nat) (q k : nat) : list ascii :=
  match k with
  | O => []
  | S k' => letter (d q) :: letters_from d (S q) k'
  end.

Definition rank (c : ascii) : nat := nat_of_ascii c - 65.

(** A value of a property of type [prop_type] read from the draws of [d]
    from draw [q] on, with its literal. *)
Definition drawn_value (d : nat -> nat) (q : nat) (prop_type : string)
    (v : value) : Prop :=
  (Py.upper prop_type = "INT" ->
     exists z, v = VInt z
       /\ z = (1 + Z.of_nat (d q) mod 1000)%Z
       /\ (1 <= z <= 1000)%Z
       /\ repr v = pretty z)
  /\ (Py.upper prop_type <> "INT" ->
     exists s, v = VStr s
       /\ String.length s = 8%nat
       /\ all_chars is_ascii_upper s = true
       /\ (forall k, (k < 8)%nat ->
             String.get k s = Some (letter (d (q + k)%nat)))
       /\ repr v = "'" +:+ s +:+ "'").

(** The statement of instance [i] of a node type whose values are read from
    the draws of [r] that are still to come: the values are those the loop
    over the properties computes some draws further on. *)
Definition instance_drawn (r : rng) (label : string) (info : node_info)
    (i : Z) (stmt : string) : Prop :=
  exists vals,
    Forall2 (fun p v => exists q, (pos r <= q)%nat
                          /\ drawn_value (draws r) q p.2 v)
      (properties info) vals
    /\ (exists n m,
          for_each (properties info) assign_property [] (advance n r)
          = Ok (assign_all (properties info).*1 vals, advance m r))
    /\ stmt = node_statement (node_id_of label i) (external_label info)
               (assign_all (properties info).*1 vals).

(** * Properties *)

(** ** Strings *)

Lemma string_app_assoc (s1 s2 s3 : string) :
  (s1 +:+ s2) +:+ s3 = s1 +:+ s2 +:+ s3.
Proof.
  induction s1 as [|c s1 IH]; [reflexivity|].
  change (String c ((s1 +:+ s2) +:+ s3) = String c (s1 +:+ s2 +:+ s3)).
  by rewrite IH.
Qed.

(** ** The monads and the loops *)

Ltac monad_unfold :=
  unfold mbind, mret, Gen_bind, Gen_ret, result_bind, result_ret, throw, lift
    in *.

Lemma for_each_result_app {A S} (l1 l2 : list A) (body : A -> S -> result S)
    (s : S) :
  for_each (l1 ++ l2) body s = s' ← for_each l1 body s; for_each l2 body s'.
Proof.
  revert s. induction l1 as [|x l1 IH]; intros s; simpl; [done|].
  monad_unfold. destruct (body x s); [apply IH | done].
Qed.

Lemma for_each_gen_app {A S} (l1 l2 : list A) (body : A -> S -> Gen S)
    (s : S) (r : rng) :
  for_each (l1 ++ l2) body s r
  = (s' ← for_each l1 body s; for_each l2 body s') r.
Proof.
  revert s r. induction l1 as [|x l1 IH]; intros s r; simpl; [done|].
  monad_unfold. destruct (body x s r) as [[s' r']|]; [apply IH | done].
Qed.

(** ** The count reader *)

Lemma int_raises_ValueError s e : Py.int s = Raise e -> e = ValueError.
Proof.
  unfold Py.int.
  destruct (match Py.strip s with
            | String c s' => _ | _ => _ end); congruence.
Qed.

Lemma read_row_short row m : (length row < 2)%nat -> read_row row m = Ok m.
Proof.
  intros H. unfold read_row.
  destruct (Nat.ltb_spec (length row) 2); [done | lia].
Qed.

Lemma read_row_not_int r0 r1 rest m e :
  Py.int (Py.strip r1) = Raise e -> read_row (r0 :: r1 :: rest) m = Ok m.
Proof.
  intros H. unfold read_row. simpl.
  rewrite H. by rewrite (int_raises_ValueError _ _ H).
Qed.

Lemma read_row_int r0 r1 rest m z :
  Py.int (Py.strip r1) = Ok z ->
  read_row (r0 :: r1 :: rest) m = Ok (<[Py.strip r0 := z]> m).
Proof. intros H. unfold read_row. simpl. by rewrite H. Qed.

(** What a row contributes: nothing, or one binding. *)
Lemma read_row_cases row m :
  read_row row m = Ok m
  \/ exists r0 r1 rest z, row = r0 :: r1 :: rest
       /\ Py.int (Py.strip r1) = Ok z
       /\ read_row row m = Ok (<[Py.strip r0 := z]> m).
Proof.
  destruct row as [|r0 [|r1 rest]]; [left; by apply read_row_short; simpl; lia..|].
  destruct (Py.int (Py.strip r1)) as [z|e] eqn:E.
  - right. exists r0, r1, rest, z. eauto using read_row_int.
  - left. eauto using read_row_not_int.
Qed.

Lemma read_rows_total rows m : exists m', for_each rows read_row m = Ok m'.
Proof.
  revert m. induction rows as [|row rows IH]; intros m; simpl; [by eexists|].
  monad_unfold.
  destruct (read_row_cases row m) as [->|(?&?&?&?&_&_&->)]; apply IH.
Qed.

Lemma read_rows_values rows m m' k z :
  for_each rows read_row m = Ok m' -> m' !! k = Some z ->
  m !! k = Some z
  \/ exists r0 r1 rest, (r0 :: r1 :: rest) ∈ rows
       /\ Py.strip r0 = k /\ Py.int (Py.strip r1) = Ok z.
Proof.
  revert m. induction rows as [|row rows IH]; intros m; simpl.
  - monad_unfold. intros [= ->]. auto.
  - monad_unfold.
    destruct (read_row_cases row m) as [->|(r0&r1&rest&z'&->&Hz&->)];
      intros Hrun Hk; destruct (IH _ Hrun Hk) as [Hm|(a&b&c&?&?&?)].
    + auto.
    + right. exists a, b, c. set_solver.
    + destruct (decide (Py.strip r0 = k)) as [<-|Hne].
      * rewrite lookup_insert_eq in Hm. injection Hm as ->.
        right. exists r0, r1, rest. set_solver.
      * rewrite lookup_insert_ne in Hm by done. auto.
    + right. exists a, b, c. set_solver.
Qed.

Lemma read_rows_skip rows1 row rows2 m :
  (forall m', read_row row m' = Ok m') ->
  for_each (rows1 ++ row :: rows2) read_row m
  = for_each (rows1 ++ rows2) read_row m.
Proof.
  intros Hskip. rewrite !for_each_result_app. monad_unfold.
  destruct (for_each rows1 read_row m) as [m1|]; [|done].
  simpl. monad_unfold. by rewrite Hskip.
Qed.

(** C5, against the claim: a row with a negative count is stored as it is,
    so a value of the returned mapping can be negative. *)
Lemma C5_negative_value :
  exists m, read_csv_counts (Some [["X"; "-3"]]) = Ok m
    /\ m !! "X" = Some (-3)%Z /\ ~ (0 <= -3)%Z.
Proof.
  exists {[ "X" := (-3)%Z ]}. split; [|split].
  - vm_compute. reflexivity.
  - vm_compute. reflexivity.
  - lia.
Qed.

(** The last row, when its second column is an integer. *)
Lemma read_csv_counts_last_row rows r0 r1 rest z :
  Py.int (Py.strip r1) = Ok z ->
  exists m1, read_csv_counts (Some rows) = Ok m1
    /\ read_csv_counts (Some (rows ++ [r0 :: r1 :: rest]))
       = Ok (<[Py.strip r0 := z]> m1).
Proof.
  intros Hz. destruct (read_rows_total rows ∅) as [m1 Hm1].
  exists m1. split; [done|]. simpl in *.
  rewrite for_each_result_app. monad_unfold. rewrite Hm1.
  simpl. monad_unfold. by rewrite (read_row_int _ _ _ _ _ Hz).
Qed.

(** C5, amended: [read_csv_counts] never raises on the rows of a file and
    every value of the mapping it returns is the integer, of either sign,
    that [int] reads in the second column of some row, under the stripped
    first column of that row; a row with fewer than two columns and a row
    whose second column is no integer leave the result as it is without the
    row; the binding of the last row replaces what the rows before it stored
    for the same label. *)
Theorem C5_read_csv_counts (rows : list (list string)) :
  exists m, read_csv_counts (Some rows) = Ok m
    /\ (forall k z, m !! k = Some z ->
          exists r0 r1 rest, (r0 :: r1 :: rest) ∈ rows
            /\ Py.strip r0 = k /\ Py.int (Py.strip r1) = Ok z)
    /\ (forall rows1 row rows2,
          rows = rows1 ++ row :: rows2 -> (length row < 2)%nat ->
          read_csv_counts (Some (rows1 ++ rows2)) = Ok m)
    /\ (forall rows1 r0 r1 rest rows2 e,
          rows = rows1 ++ (r0 :: r1 :: rest) :: rows2 ->
          Py.int (Py.strip r1) = Raise e ->
          read_csv_counts (Some (rows1 ++ rows2)) = Ok m)
    /\ (forall rows1 r0 r1 rest z,
          rows = rows1 ++ [r0 :: r1 :: rest] ->
          Py.int (Py.strip r1) = Ok z ->
          exists m1, read_csv_counts (Some rows1) = Ok m1
            /\ m = <[Py.strip r0 := z]> m1).
Proof.
  destruct (read_rows_total rows ∅) as [m Hm]. exists m.
  split; [done|]. split; [|split; [|split]].
  - intros k z Hk.
    destruct (read_rows_values _ _ _ _ _ Hm Hk) as [Hempty|?]; [|done].
    by rewrite lookup_empty in Hempty.
  - intros rows1 row rows2 -> Hshort. rewrite <- Hm. symmetry.
    apply read_rows_skip; intros; by apply read_row_short.
  - intros rows1 r0 r1 rest rows2 e -> He. rewrite <- Hm. symmetry.
    apply read_rows_skip; intros; by eapply read_row_not_int.
  - intros rows1 r0 r1 rest z -> Hz.
    destruct (read_csv_counts_last_row rows1 r0 r1 rest z Hz)
      as (m1 & Hm1 & Hlast).
    exists m1. split; [done|]. simpl in Hlast. congruence.
Qed.

(** ** The random source *)

Lemma random_choice_ok {A} (l : list A) (r : rng) :
  l <> [] ->
  exists x, random_choice l r = Ok (x, advance 1 r) /\ x ∈ l.
Proof.
  intros Hl. unfold random_choice, next_draw, getitem. monad_unfold.
  assert (Hlt : (draws r (pos r) mod length l < length l)%nat).
  { apply Nat.mod_upper_bound. destruct l; simpl; [done | lia]. }
  destruct (lookup_lt_is_Some_2 _ _ Hlt) as [x Hx]. rewrite Hx.
  exists x. split; [done|]. by eapply list_elem_of_lookup_2.
Qed.

Lemma random_choices_n_ok {A} (population : list A) (k : nat) (r : rng) :
  population <> [] ->
  exists cs, random_choices_n population k r = Ok (cs, advance k r)
    /\ length cs = k /\ Forall (fun c => c ∈ population) cs.
Proof.
  intros Hp. revert r. induction k as [|k IH]; intros r; simpl.
  - exists []. monad_unfold. destruct r; auto.
  - monad_unfold.
    destruct (random_choice_ok population r Hp) as (c & -> & Hc).
    destruct (IH (advance 1 r)) as (cs & -> & Hlen & Hall).
    exists (c :: cs). split; [|split; [simpl; lia | by constructor]].
    unfold advance. simpl. do 3 f_equal. lia.
Qed.

Lemma all_chars_of_list P cs :
  Forall (fun c => P c = true) cs ->
  all_chars P (string_of_list_ascii cs) = true.
Proof. induction 1; simpl; [done | by apply andb_true_intro]. Qed.

Lemma length_string_of_list cs :
  String.length (string_of_list_ascii cs) = length cs.
Proof. induction cs; simpl; congruence. Qed.

Lemma ascii_uppercase_upper c :
  c ∈ ascii_uppercase -> is_ascii_upper c = true.
Proof.
  intros Hc. unfold ascii_uppercase in Hc. simpl in Hc.
  repeat (apply elem_of_cons in Hc as [-> | Hc]; [reflexivity|]).
  by apply elem_of_nil in Hc.
Qed.

Lemma generate_random_string_ok (r : rng) :
  exists s, generate_random_string 8 r = Ok (s, advance 8 r)
    /\ String.length s = 8%nat /\ all_chars is_ascii_upper s = true.
Proof.
  unfold generate_random_string, random_choices. monad_unfold.
  destruct (random_choices_n_ok ascii_uppercase (Z.to_nat 8) r)
    as (cs & -> & Hlen & Hall); [done|].
  exists (string_of_list_ascii cs). split; [done|]. split.
  - by rewrite length_string_of_list.
  - apply all_chars_of_list. eapply Forall_impl; [exact Hall|].
    apply ascii_uppercase_upper.
Qed.

Lemma generate_random_int_ok (r : rng) :
  exists z, generate_random_int 1 1000 r = Ok (z, advance 1 r)
    /\ (1 <= z <= 1000)%Z.
Proof.
  unfold generate_random_int, random_randint, next_draw. monad_unfold.
  change (1 <=? 1000)%Z with true. cbv iota.
  change (1000 - 1 + 1)%Z with 1000%Z.
  eexists. split; [reflexivity|].
  pose proof (Z.mod_pos_bound (Z.of_nat (draws r (pos r))) 1000). lia.
Qed.

(** ** The node generator *)

Lemma upper_letter_plain c :
  is_ascii_upper c = true ->
  Py.repr_char "'" c = String c "" /\ Ascii.eqb "'" c = false.
Proof.
  destruct c as [[] [] [] [] [] [] [] []]; intros H;
    try discriminate H; split; reflexivity.
Qed.

Lemma repr_body_upper s :
  all_chars is_ascii_upper s = true ->
  Py.repr_body "'" s = s /\ Py.contains "'" s = false.
Proof.
  induction s as [|c s IH]; cbn [Py.repr_body Py.contains all_chars]; [done|].
  intros [Hc Hs]%andb_prop. destruct (IH Hs) as [-> ->].
  destruct (upper_letter_plain c Hc) as [-> ->]. done.
Qed.

Lemma repr_str_upper s :
  all_chars is_ascii_upper s = true -> Py.repr_str s = "'" +:+ s +:+ "'".
Proof.
  intros H. unfold Py.repr_str.
  destruct (repr_body_upper s H) as [Hbody ->]. cbn [andb].
  rewrite Hbody. reflexivity.
Qed.

Lemma assign_property_ok prop pa r :
  exists v n, assign_property prop pa r = Ok (Dict.set pa prop.1 v, advance n r)
    /\ value_ok (kind_of prop.2) v.
Proof.
  destruct prop as [name type]. unfold assign_property, kind_of. simpl.
  monad_unfold.
  destruct (generate_random_string_ok r) as (s & Hs & Hlen & Hup).
  destruct (generate_random_int_ok r) as (z & Hz & Hrange).
  assert (Hstr : value_ok KString (VStr s)).
  { exists s. simpl. eauto using repr_str_upper. }
  destruct (String.eqb (Py.upper type) "STRING").
  - rewrite Hs. eauto.
  - destruct (String.eqb (Py.upper type) "INT").
    + rewrite Hz. exists (VInt z), 1%nat. split; [done|]. exists z. auto.
    + rewrite Hs. eauto.
Qed.

Lemma advance_advance n m r : advance n (advance m r) = advance (n + m) r.
Proof. unfold advance. simpl. f_equal. lia. Qed.

Lemma advance_0 r : advance 0 r = r.
Proof. by destruct r. Qed.

Lemma assign_properties_ok props pa r :
  exists vals n,
    for_each props assign_property pa r
    = Ok (foldl (fun d nv => Dict.set d nv.1 nv.2) pa (zip props.*1 vals),
          advance n r)
    /\ Forall2 (fun p v => value_ok (kind_of p.2) v) props vals.
Proof.
  revert pa r. induction props as [|p props IH]; intros pa r; simpl.
  - exists [], 0%nat. rewrite advance_0. by split; [|constructor].
  - monad_unfold.
    destruct (assign_property_ok p pa r) as (v & n & -> & Hv).
    destruct (IH (Dict.set pa p.1 v) (advance n r)) as (vals & m & -> & Hvals).
    exists (v :: vals), (m + n)%nat. rewrite advance_advance.
    by split; [|constructor].
Qed.

Lemma node_instance_ok label info i statements node_ids ids r :
  node_ids !! label = Some ids ->
  exists stmt n,
    node_instance label info i (statements, node_ids) r
    = Ok ((statements ++ [stmt],
           <[label := ids ++ [node_id_of label i]]> node_ids), advance n r)
    /\ instance_statement label info i stmt.
Proof.
  intros Hids.
  destruct (assign_properties_ok (properties info) [] r)
    as (vals & n & Hrun & Hvals).
  unfold node_instance, lookup_key. monad_unfold. rewrite Hrun, Hids.
  eexists _, n. split; [reflexivity|]. exists vals. by split.
Qed.

Lemma node_instances_ok label info (indices : list Z) statements node_ids ids r :
  node_ids !! label = Some ids ->
  exists block n,
    for_each indices (node_instance label info) (statements, node_ids) r
    = Ok ((statements ++ block,
           <[label := ids ++ (node_id_of label <$> indices)]> node_ids),
          advance n r)
    /\ Forall2 (instance_statement label info) indices block.
Proof.
  revert statements node_ids ids r.
  induction indices as [|i indices IH]; intros statements node_ids ids r Hids.
  - exists [], 0%nat. simpl. monad_unfold.
    rewrite !app_nil_r, advance_0, insert_id by done. by split; [|constructor].
  - destruct (node_instance_ok label info i statements _ _ r Hids)
      as (stmt & n & Hrun & Hstmt).
    edestruct (IH (statements ++ [stmt])) as (block & m & Hrest & Hblock).
    { apply lookup_insert_eq. }
    cbn [for_each]. monad_unfold. rewrite Hrun, Hrest.
    exists (stmt :: block), (m + n)%nat.
    rewrite insert_insert_eq, advance_advance, <- !app_assoc. simpl.
    by split; [|constructor].
Qed.

Lemma node_type_ok counts_map default_count item statements node_ids ids r :
  node_ids !! item.1 = Some ids ->
  exists block n,
    node_type counts_map default_count item (statements, node_ids) r
    = Ok ((statements ++ block,
           <[item.1 := ids ++ (node_id_of item.1 <$>
               Py.range (resolve_count counts_map default_count item.1))]>
             node_ids),
          advance n r)
    /\ block_ok counts_map default_count item block.
Proof.
  destruct item as [label info]. simpl. intros Hids.
  by apply node_instances_ok.
Qed.

Lemma ids_for_cons counts_map default_count label item items :
  ids_for counts_map default_count label (item :: items)
  = (if String.eqb item.1 label
     then node_id_of label <$>
            Py.range (resolve_count counts_map default_count label)
     else [])
    ++ ids_for counts_map default_count label items.
Proof. reflexivity. Qed.

Lemma node_types_ok counts_map default_count items statements node_ids r :
  (forall k, k ∈ Dict.keys items -> is_Some (node_ids !! k)) ->
  exists blocks node_ids' n,
    for_each items (node_type counts_map default_count) (statements, node_ids) r
    = Ok ((statements ++ concat blocks, node_ids'), advance n r)
    /\ Forall2 (block_ok counts_map default_count) items blocks
    /\ forall label,
         node_ids' !! label
         = (fun ids => ids ++ ids_for counts_map default_count label items)
             <$> node_ids !! label.
Proof.
  revert statements node_ids r.
  induction items as [|item items IH]; intros statements node_ids r Hkeys.
  - exists [], node_ids, 0%nat. simpl. monad_unfold.
    rewrite app_nil_r, advance_0. split; [done|]. split; [constructor|].
    intros label. destruct (node_ids !! label); simpl; [|done].
    by rewrite app_nil_r.
  - destruct (Hkeys item.1) as [ids Hids]; [apply elem_of_cons; by left|].
    destruct (node_type_ok counts_map default_count item statements
                node_ids ids r Hids) as (block & n & Hrun & Hblock).
    edestruct (IH (statements ++ block)) as (blocks & ids' & m & Hrest & Hblocks & Hids').
    { intros k Hk. destruct (decide (item.1 = k)) as [<-|Hne].
      - rewrite lookup_insert_eq. eauto.
      - rewrite lookup_insert_ne by done. apply Hkeys.
        apply elem_of_cons. by right. }
    cbn [for_each]. monad_unfold. rewrite Hrun, Hrest.
    exists (block :: blocks), ids', (m + n)%nat.
    rewrite advance_advance, <- app_assoc. split; [done|].
    split; [by constructor|].
    intros label. rewrite Hids', ids_for_cons.
    destruct (String.eqb_spec item.1 label) as [Heq|Hne].
    + rewrite <- Heq, lookup_insert_eq, Hids. simpl. by rewrite app_assoc.
    + rewrite lookup_insert_ne by done. done.
Qed.

Lemma empty_node_ids_lookup nodes_dict label :
  empty_node_ids nodes_dict !! label
  = if decide (label ∈ Dict.keys nodes_dict) then Some [] else None.
Proof.
  unfold empty_node_ids.
  assert (G : forall ks (m : gmap string (list string)),
    foldl (fun m k => <[k := []]> m) m ks !! label
    = if decide (label ∈ ks) then Some [] else m !! label).
  { induction ks as [|k ks IH]; intros m; simpl.
    - destruct (decide (label ∈ [])) as [H|]; [|done]. by apply elem_of_nil in H.
    - rewrite IH. destruct (decide (k = label)) as [->|Hne].
      + rewrite lookup_insert_eq.
        rewrite (decide_True (P := label ∈ label :: ks))
          by (apply elem_of_cons; by left).
        by destruct (decide (label ∈ ks)).
      + rewrite lookup_insert_ne by done.
        destruct (decide (label ∈ ks)) as [Hin|Hnin].
        * rewrite decide_True; [done | apply elem_of_cons; by right].
        * rewrite decide_False; [done|].
          intros [?|?]%elem_of_cons; [congruence | done]. }
  rewrite G. by rewrite lookup_empty.
Qed.

(** The shape of every result of the node generator: it never raises, the
    statements come in one block for each item of [nodes_dict] in order, and
    [node_ids] has exactly the keys of [nodes_dict]. *)
Lemma generate_cypher_for_nodes_ok nodes_dict counts_map default_count r :
  exists blocks node_ids n,
    generate_cypher_for_nodes nodes_dict counts_map default_count r
    = Ok ((concat blocks, node_ids), advance n r)
    /\ Forall2 (block_ok counts_map default_count) nodes_dict blocks
    /\ forall label,
         node_ids !! label
         = if decide (label ∈ Dict.keys nodes_dict)
           then Some (ids_for counts_map default_count label nodes_dict)
           else None.
Proof.
  unfold generate_cypher_for_nodes.
  destruct (node_types_ok counts_map default_count nodes_dict []
              (empty_node_ids nodes_dict) r)
    as (blocks & node_ids & n & Hrun & Hblocks & Hids).
  { intros k Hk. rewrite empty_node_ids_lookup. by rewrite decide_True. }
  exists blocks, node_ids, n. split; [done|]. split; [done|].
  intros label. rewrite Hids, empty_node_ids_lookup.
  by case_decide.
Qed.

Lemma ids_for_absent counts_map default_count label items :
  label ∉ Dict.keys items -> ids_for counts_map default_count label items = [].
Proof.
  induction items as [|item items IH]; [done|].
  intros [Hne Hnot]%not_elem_of_cons. rewrite ids_for_cons, IH by done.
  destruct (String.eqb_spec item.1 label); [congruence | done].
Qed.

Lemma ids_for_unique counts_map default_count label info items :
  NoDup (Dict.keys items) -> (label, info) ∈ items ->
  ids_for counts_map default_count label items
  = node_id_of label <$> Py.range (resolve_count counts_map default_count label).
Proof.
  induction items as [|item items IH]; intros Hnd Hin.
  - by apply elem_of_nil in Hin.
  - apply NoDup_cons in Hnd as [Hfresh Hnd]. rewrite ids_for_cons.
    apply elem_of_cons in Hin as [<-|Hin].
    + simpl. rewrite String.eqb_refl, ids_for_absent by done.
      by rewrite app_nil_r.
    + destruct (String.eqb_spec item.1 label) as [Heq|Hne].
      * exfalso. apply Hfresh. rewrite Heq.
        apply list_elem_of_fmap. by exists (label, info).
      * by apply IH.
Qed.

Lemma node_block_of_label nodes_dict counts_map default_count r label info :
  NoDup (Dict.keys nodes_dict) -> (label, info) ∈ nodes_dict ->
  exists blocks node_ids n,
    generate_cypher_for_nodes nodes_dict counts_map default_count r
    = Ok ((concat blocks, node_ids), advance n r)
    /\ Forall2 (block_ok counts_map default_count) nodes_dict blocks
    /\ exists i block,
         nodes_dict !! i = Some (label, info) /\ blocks !! i = Some block
         /\ Forall2 (instance_statement label info)
              (Py.range (resolve_count counts_map default_count label)) block
         /\ node_ids !! label
            = Some (node_id_of label <$>
                      Py.range (resolve_count counts_map default_count label)).
Proof.
  intros Hnd Hin.
  destruct (generate_cypher_for_nodes_ok nodes_dict counts_map default_count r)
    as (blocks & node_ids & n & Hrun & Hblocks & Hids).
  exists blocks, node_ids, n. split; [done|]. split; [done|].
  destruct (list_elem_of_lookup_1 _ _ Hin) as [i Hi].
  destruct (Forall2_lookup_l _ _ _ _ _ Hblocks Hi) as (block & Hblock & Hok).
  exists i, block. split; [done|]. split; [done|]. split; [exact Hok|].
  rewrite Hids, decide_True.
  - f_equal. by eapply ids_for_unique.
  - apply list_elem_of_fmap. by exists (label, info).
Qed.

Lemma length_range n : length (Py.range n) = Z.to_nat n.
Proof. unfold Py.range. by rewrite length_fmap, length_seq. Qed.

Lemma NoDup_range n : NoDup (Py.range n).
Proof.
  unfold Py.range. apply NoDup_fmap_2; [|apply NoDup_seq].
  intros a b. apply Nat2Z.inj.
Qed.

Lemma range_lookup n j :
  (0 <= j < n)%Z -> Py.range n !! Z.to_nat j = Some j.
Proof.
  intros Hj. unfold Py.range. rewrite list_lookup_fmap, lookup_seq_lt by lia.
  simpl. f_equal. lia.
Qed.

Lemma node_id_of_inj label : Inj (=) (=) (node_id_of label).
Proof.
  intros i j H. unfold node_id_of in H.
  apply String.app_inj in H. apply String.app_inj in H.
  by apply pretty_Z_inj in H.
Qed.

(** C1.  Let [nodes_dict] be a dict (its keys are distinct) with an item
    [label -> info] whose resolved count [N] (the override of [counts_map],
    or the default) is not negative.  Then [generate_cypher_for_nodes] returns
    without raising; its statements are the concatenation of one block for
    each item of [nodes_dict], in order; the block of [label] has exactly [N]
    statements, the one at index [j] creating the identifier [label_j] with
    the external label of the item; and the list recorded for [label] in
    [node_ids] has length exactly [N], holds [label_j] at each index [j] below
    [N], and has no repeated identifier. *)
Theorem C1_node_statements_and_ids
    (nodes_dict : Dict.t node_info) (counts_map : gmap string Z)
    (default_count : Z) (r : rng) (label : string) (info : node_info) (N : Z) :
  NoDup (Dict.keys nodes_dict) ->
  (label, info) ∈ nodes_dict ->
  resolve_count counts_map default_count label = N ->
  (0 <= N)%Z ->
  exists blocks node_ids r',
    generate_cypher_for_nodes nodes_dict counts_map default_count r
    = Ok ((concat blocks, node_ids), r')
    /\ Forall2 (block_ok counts_map default_count) nodes_dict blocks
    /\ exists i block ids,
         nodes_dict !! i = Some (label, info)
         /\ blocks !! i = Some block
         /\ Z.of_nat (length block) = N
         /\ Forall2 (instance_statement label info) (Py.range N) block
         /\ node_ids !! label = Some ids
         /\ Z.of_nat (length ids) = N
         /\ (forall j, (0 <= j < N)%Z ->
               ids !! Z.to_nat j = Some (label +:+ "_" +:+ pretty j))
         /\ NoDup ids.
Proof.
  intros Hnd Hin HN Hpos.
  destruct (node_block_of_label nodes_dict counts_map default_count r
              label info Hnd Hin)
    as (blocks & node_ids & n & Hrun & Hblocks & i & block & Hi & Hb & Hok & Hids).
  rewrite HN in Hok, Hids.
  exists blocks, node_ids, (advance n r). split; [done|]. split; [done|].
  exists i, block, (node_id_of label <$> Py.range N).
  split; [done|]. split; [done|]. split.
  { rewrite <- (Forall2_length _ _ _ Hok), length_range. lia. }
  split; [done|]. split; [done|]. split.
  { rewrite length_fmap, length_range. lia. }
  split.
  - intros j Hj. by rewrite list_lookup_fmap, range_lookup.
  - apply NoDup_fmap_2; [apply node_id_of_inj | apply NoDup_range].
Qed.

Lemma C1_witness :
  exists blocks node_ids r',
    generate_cypher_for_nodes [("PersonType", NodeInfo "Person" [])]
      {[ "PersonType" := 3%Z ]} 4 (Rng (fun n => n) 0)
    = Ok ((concat blocks, node_ids), r')
    /\ Forall2 (block_ok {[ "PersonType" := 3%Z ]} 4)
         [("PersonType", NodeInfo "Person" [])] blocks
    /\ exists i block ids,
         [("PersonType", NodeInfo "Person" [])] !! i
         = Some ("PersonType", NodeInfo "Person" [])
         /\ blocks !! i = Some block
         /\ Z.of_nat (length block) = 3%Z
         /\ Forall2 (instance_statement "PersonType" (NodeInfo "Person" []))
              (Py.range 3) block
         /\ node_ids !! "PersonType" = Some ids
         /\ Z.of_nat (length ids) = 3%Z
         /\ (forall j, (0 <= j < 3)%Z ->
               ids !! Z.to_nat j = Some ("PersonType" +:+ "_" +:+ pretty j))
         /\ NoDup ids.
Proof.
  apply (C1_node_statements_and_ids [("PersonType", NodeInfo "Person" [])]
           {[ "PersonType" := 3%Z ]} 4 (Rng (fun n => n) 0)
           "PersonType" (NodeInfo "Person" []) 3).
  - apply NoDup_singleton.
  - apply list_elem_of_singleton. reflexivity.
  - vm_compute. reflexivity.
  - lia.
Defined.

Lemma range_nonpos n : (n <= 0)%Z -> Py.range n = [].
Proof.
  intros H. unfold Py.range. by replace (Z.to_nat n) with 0%nat by lia.
Qed.

(** C10.  Let the last row of the count file be [label, s] where [int] reads
    [s] as a negative integer [z], and let the stripped label be a node type
    of [nodes_dict] (a dict: its keys are distinct).  Then [read_csv_counts]
    returns, without raising, a mapping that holds the negative [z] under the
    label, and [generate_cypher_for_nodes] with that mapping returns without
    raising, the block of statements of the label is empty and the identifier
    list of the label is empty: as for a count of zero. *)
Theorem C10_negative_count_like_zero
    (rows : list (list string)) (label s : string) (z : Z)
    (nodes_dict : Dict.t node_info) (info : node_info)
    (default_count : Z) (r : rng) :
  Py.int (Py.strip s) = Ok z ->
  (z < 0)%Z ->
  NoDup (Dict.keys nodes_dict) ->
  (Py.strip label, info) ∈ nodes_dict ->
  exists counts_map,
    read_csv_counts (Some (rows ++ [[label; s]])) = Ok counts_map
    /\ counts_map !! Py.strip label = Some z
    /\ exists blocks node_ids r',
         generate_cypher_for_nodes nodes_dict counts_map default_count r
         = Ok ((concat blocks, node_ids), r')
         /\ Forall2 (block_ok counts_map default_count) nodes_dict blocks
         /\ (exists i, nodes_dict !! i = Some (Py.strip label, info)
                       /\ blocks !! i = Some [])
         /\ node_ids !! Py.strip label = Some [].
Proof.
  intros Hz Hneg Hnd Hin.
  destruct (read_csv_counts_last_row rows label s [] z Hz)
    as (m1 & _ & Hread).
  eexists. split; [exact Hread|]. split; [apply lookup_insert_eq|].
  destruct (node_block_of_label nodes_dict (<[Py.strip label := z]> m1)
              default_count r _ info Hnd Hin)
    as (blocks & node_ids & n & Hrun & Hblocks & i & block & Hi & Hb & Hok & Hids).
  assert (HN : resolve_count (<[Py.strip label := z]> m1) default_count
                 (Py.strip label) = z).
  { unfold resolve_count. by rewrite lookup_insert_eq. }
  rewrite HN, range_nonpos in Hok, Hids by lia.
  apply Forall2_nil_inv_l in Hok as ->.
  exists blocks, node_ids, (advance n r). eauto 10.
Qed.

Lemma C10_witness :
  exists counts_map,
    read_csv_counts (Some ([] ++ [["X"; "-3"]])) = Ok counts_map
    /\ counts_map !! Py.strip "X" = Some (-3)%Z
    /\ exists blocks node_ids r',
         generate_cypher_for_nodes [("X", NodeInfo "Thing" [("name", "STRING")])]
           counts_map 4 (Rng (fun n => n) 0)
         = Ok ((concat blocks, node_ids), r')
         /\ Forall2 (block_ok counts_map 4)
              [("X", NodeInfo "Thing" [("name", "STRING")])] blocks
         /\ (exists i, [("X", NodeInfo "Thing" [("name", "STRING")])] !! i
                       = Some (Py.strip "X", NodeInfo "Thing" [("name", "STRING")])
                       /\ blocks !! i = Some [])
         /\ node_ids !! Py.strip "X" = Some [].
Proof.
  apply (C10_negative_count_like_zero [] "X" "-3" (-3)
           [("X", NodeInfo "Thing" [("name", "STRING")])]
           (NodeInfo "Thing" [("name", "STRING")]) 4 (Rng (fun n => n) 0)).
  - vm_compute. reflexivity.
  - lia.
  - apply NoDup_singleton.
  - apply list_elem_of_singleton. vm_compute. reflexivity.
Defined.

Lemma dict_set_fresh {V} (d : Dict.t V) k v :
  k ∉ Dict.keys d -> Dict.set d k v = d ++ [(k, v)].
Proof.
  induction d as [|[k' v'] d IH]; simpl; [done|].
  intros [Hne Hnot]%not_elem_of_cons.
  destruct (String.eqb_spec k' k); [congruence|]. by rewrite IH.
Qed.

Lemma assign_fresh (names : list string) (vals : list value) (d : Dict.t value) :
  NoDup names -> (forall k, k ∈ names -> k ∉ Dict.keys d) ->
  foldl (fun d nv => Dict.set d nv.1 nv.2) d (zip names vals)
  = d ++ zip names vals.
Proof.
  revert vals d. induction names as [|k names IH]; intros vals d Hnd Hfresh.
  - simpl. by rewrite app_nil_r.
  - destruct vals as [|v vals]; simpl; [by rewrite app_nil_r|].
    apply NoDup_cons in Hnd as [Hk Hnd].
    rewrite dict_set_fresh by (apply Hfresh, elem_of_cons; by left).
    rewrite IH, <- app_assoc; [done | done |].
    intros k' Hk'. unfold Dict.keys. rewrite fmap_app.
    intros [Hin|Hin%list_elem_of_singleton]%elem_of_app.
    + apply (Hfresh k'); [apply elem_of_cons; by right | done].
    + simpl in Hin. congruence.
Qed.

Lemma assign_all_distinct (names : list string) (vals : list value) :
  NoDup names -> assign_all names vals = zip names vals.
Proof.
  intros Hnd. unfold assign_all. rewrite assign_fresh; [done | done |].
  intros k _ H. by apply elem_of_nil in H.
Qed.

(** ** The values as functions of the draws *)

Lemma ascii_uppercase_lookup n :
  ascii_uppercase !! (n mod 26)%nat = Some (letter n).
Proof.
  unfold letter.
  assert (H : (n mod 26 < 26)%nat) by (apply Nat.mod_upper_bound; lia).
  revert H. generalize (n mod 26)%nat. intros i Hi.
  do 26 (destruct i as [|i]; [reflexivity|]). lia.
Qed.

Lemma letter_upper n : is_ascii_upper (letter n) = true.
Proof.
  unfold letter.
  assert (H : (n mod 26 < 26)%nat) by (apply Nat.mod_upper_bound; lia).
  revert H. generalize (n mod 26)%nat. intros i Hi.
  do 26 (destruct i as [|i]; [reflexivity|]). lia.
Qed.

Lemma letter_rank c : is_ascii_upper c = true -> letter (rank c) = c.
Proof.
  destruct c as [[] [] [] [] [] [] [] []]; intros H;
    try discriminate H; reflexivity.
Qed.

Lemma random_choice_letter r :
  random_choice ascii_uppercase r = Ok (letter (draws r (pos r)), advance 1 r).
Proof.
  unfold random_choice, next_draw, getitem. monad_unfold.
  change (length ascii_uppercase) with 26%nat.
  rewrite ascii_uppercase_lookup. reflexivity.
Qed.

Lemma random_choices_letters k r :
  random_choices_n ascii_uppercase k r
  = Ok (letters_from (draws r) (pos r) k, advance k r).
Proof.
  revert r. induction k as [|k IH]; intros r; simpl.
  - monad_unfold. by destruct r.
  - monad_unfold. rewrite random_choice_letter, IH. simpl.
    unfold advance. simpl. do 3 f_equal. lia.
Qed.

Lemma generate_random_string_drawn r :
  generate_random_string 8 r
  = Ok (string_of_list_ascii (letters_from (draws r) (pos r) 8), advance 8 r).
Proof.
  unfold generate_random_string, random_choices. monad_unfold.
  by rewrite random_choices_letters.
Qed.

Lemma letters_from_length d q k : length (letters_from d q k) = k.
Proof. revert q. induction k; intros q; simpl; [done | by rewrite IHk]. Qed.

Lemma letters_from_upper d q k :
  Forall (fun c => is_ascii_upper c = true) (letters_from d q k).
Proof.
  revert q. induction k; intros q; simpl; constructor;
    [apply letter_upper | apply IHk].
Qed.

Lemma letters_from_get d q k j :
  (j < k)%nat ->
  String.get j (string_of_list_ascii (letters_from d q k))
  = Some (letter (d (q + j)%nat)).
Proof.
  revert q j. induction k as [|k IH]; intros q j Hj; [lia|].
  destruct j as [|j]; simpl.
  - by rewrite Nat.add_0_r.
  - rewrite IH by lia. do 3 f_equal. lia.
Qed.

(** Every string of 8 upper-case letters is selected by some draws. *)
Lemma letters_from_reach s :
  String.length s = 8%nat -> all_chars is_ascii_upper s = true ->
  string_of_list_ascii
    (letters_from (fun k => rank (default "A"%char (String.get k s))) 0 8) = s.
Proof.
  intros Hlen Hup.
  do 8 (destruct s as [|? s]; [discriminate Hlen|]).
  destruct s; [|discriminate Hlen].
  cbn [all_chars] in Hup.
  repeat (apply andb_prop in Hup as [? Hup]).
  cbn [letters_from String.get from_option string_of_list_ascii].
  unfold id. by rewrite !letter_rank.
Qed.

(** The two outcomes of lines 105-110. *)
Lemma assign_property_int name type pa r :
  Py.upper type = "INT" ->
  assign_property (name, type) pa r
  = Ok (Dict.set pa name (VInt (1 + Z.of_nat (draws r (pos r)) mod 1000)),
        advance 1 r).
Proof. intros H. unfold assign_property. rewrite H. reflexivity. Qed.

Lemma assign_property_str name type pa r :
  Py.upper type <> "INT" ->
  assign_property (name, type) pa r
  = Ok (Dict.set pa name
          (VStr (string_of_list_ascii (letters_from (draws r) (pos r) 8))),
        advance 8 r).
Proof.
  intros H. unfold assign_property.
  pose proof (generate_random_string_drawn r) as Hs.
  monad_unfold.
  destruct (String.eqb (Py.upper type) "STRING"); [by rewrite Hs|].
  destruct (String.eqb_spec (Py.upper type) "INT"); [done | by rewrite Hs].
Qed.

Lemma assign_property_drawn name type pa r :
  exists v n,
    assign_property (name, type) pa r = Ok (Dict.set pa name v, advance n r)
    /\ drawn_value (draws r) (pos r) type v.
Proof.
  destruct (decide (Py.upper type = "INT")) as [Hint|Hstr].
  - eexists _, 1%nat. split; [by apply assign_property_int|]. split; [|done].
    intros _. eexists. split; [reflexivity|]. split; [reflexivity|].
    split; [|reflexivity].
    pose proof (Z.mod_pos_bound (Z.of_nat (draws r (pos r))) 1000). lia.
  - eexists _, 8%nat. split; [by apply assign_property_str|]. split; [done|].
    intros _. eexists. split; [reflexivity|].
    assert (Hup : all_chars is_ascii_upper
                    (string_of_list_ascii (letters_from (draws r) (pos r) 8))
                  = true)
      by apply all_chars_of_list, letters_from_upper.
    split; [by rewrite length_string_of_list, letters_from_length|].
    split; [done|]. split; [intros k Hk; by apply letters_from_get|].
    by apply repr_str_upper.
Qed.

Lemma assign_properties_drawn props pa r :
  exists vals n,
    for_each props assign_property pa r
    = Ok (foldl (fun d nv => Dict.set d nv.1 nv.2) pa (zip props.*1 vals),
          advance n r)
    /\ Forall2 (fun p v => exists q, (pos r <= q)%nat
                            /\ drawn_value (draws r) q p.2 v) props vals.
Proof.
  revert pa r. induction props as [|[name type] props IH]; intros pa r.
  - exists [], 0%nat. simpl. rewrite advance_0. by split; [|constructor].
  - destruct (assign_property_drawn name type pa r) as (v & n & Hrun & Hv).
    destruct (IH (Dict.set pa name v) (advance n r))
      as (vals & m & Hrest & Hvals).
    exists (v :: vals), (m + n)%nat. split.
    + cbn [for_each]. monad_unfold. rewrite Hrun, Hrest.
      by rewrite advance_advance.
    + constructor; [by exists (pos r)|].
      eapply Forall2_impl; [exact Hvals|].
      intros p v' (q & Hq & Hd). exists q. simpl in Hq. split; [lia | exact Hd].
Qed.

Lemma instance_drawn_advance n r label info i stmt :
  instance_drawn (advance n r) label info i stmt ->
  instance_drawn r label info i stmt.
Proof.
  intros (vals & Hvals & (n1 & n2 & Hloop) & ->). exists vals. split; [|split].
  - eapply Forall2_impl; [exact Hvals|].
    intros p v (q & Hq & Hd). exists q. simpl in Hq. split; [lia | exact Hd].
  - exists (n1 + n)%nat, (n2 + n)%nat. by rewrite <- !advance_advance.
  - done.
Qed.

Lemma node_instance_drawn label info i st r st' r' :
  node_instance label info i st r = Ok (st', r') ->
  exists n, r' = advance n r
    /\ forall stmt, stmt ∈ st'.1 ->
         stmt ∈ st.1 \/ instance_drawn r label info i stmt.
Proof.
  destruct st as [statements node_ids].
  destruct (assign_properties_drawn (properties info) [] r)
    as (vals & n & Hrun & Hvals).
  pose proof Hrun as Hloop.
  unfold node_instance, lookup_key. monad_unfold. rewrite Hrun.
  destruct (node_ids !! label) as [ids|]; [|done].
  intros [= <- <-]. exists n. split; [done|]. simpl.
  intros stmt [Hin|Hin%list_elem_of_singleton]%elem_of_app; [by left|].
  right. exists vals. split; [done|]. split; [|done].
  exists 0%nat, n. by rewrite advance_0.
Qed.

(** A loop over the generator state only adds statements, and those of the
    body for one element stay what they are while the source moves on. *)
Lemma for_each_statements {A} (P : rng -> A -> string -> Prop)
    (body : A -> node_state -> Gen node_state) :
  (forall n r x stmt, P (advance n r) x stmt -> P r x stmt) ->
  (forall x st r st' r', body x st r = Ok (st', r') ->
     exists n, r' = advance n r
       /\ forall stmt, stmt ∈ st'.1 -> stmt ∈ st.1 \/ P r x stmt) ->
  forall l st r st' r', for_each l body st r = Ok (st', r') ->
    exists n, r' = advance n r
      /\ forall stmt, stmt ∈ st'.1 ->
           stmt ∈ st.1 \/ exists x, x ∈ l /\ P r x stmt.
Proof.
  intros Hmono Hbody. induction l as [|x l IH]; intros st r st' r';
    cbn [for_each]; monad_unfold.
  - intros [= <- <-]. exists 0%nat. rewrite advance_0. split; [done|]. auto.
  - destruct (body x st r) as [[st1 r1]|] eqn:Hx; [|done]. intros Hrest.
    destruct (Hbody _ _ _ _ _ Hx) as (n & -> & H1).
    destruct (IH _ _ _ _ Hrest) as (m & -> & H2).
    exists (m + n)%nat. rewrite advance_advance. split; [done|].
    intros stmt Hin. destruct (H2 _ Hin) as [Hin1 | (y & Hy & HP)].
    + destruct (H1 _ Hin1) as [?|HP]; [by left|]. right. exists x.
      split; [apply elem_of_cons; by left | done].
    + right. exists y. split; [apply elem_of_cons; by right|].
      by eapply Hmono.
Qed.

Lemma elem_of_range i n : i ∈ Py.range n -> (0 <= i < n)%Z.
Proof.
  unfold Py.range. intros (k & -> & Hk)%list_elem_of_fmap.
  apply elem_of_seq in Hk. lia.
Qed.

Lemma generate_cypher_for_nodes_drawn nodes_dict counts_map default_count r
    statements node_ids r' stmt :
  generate_cypher_for_nodes nodes_dict counts_map default_count r
  = Ok ((statements, node_ids), r') ->
  stmt ∈ statements ->
  exists label info i,
    (label, info) ∈ nodes_dict
    /\ (0 <= i < resolve_count counts_map default_count label)%Z
    /\ instance_drawn r label info i stmt.
Proof.
  unfold generate_cypher_for_nodes. intros Hrun Hin.
  destruct (for_each_statements
              (fun r item stmt => exists i,
                 (0 <= i < resolve_count counts_map default_count item.1)%Z
                 /\ instance_drawn r item.1 item.2 i stmt)
              (node_type counts_map default_count)) with
    (l := nodes_dict) (st := ([] : list string, empty_node_ids nodes_dict))
    (r := r) (st' := (statements, node_ids)) (r' := r')
    as (n & _ & Hall); [| |exact Hrun|].
  - intros n r0 item s (i & Hi & Hd). exists i. split; [done|].
    by eapply instance_drawn_advance.
  - intros [label info] st r0 st1 r1 Htype. unfold node_type in Htype.
    destruct (for_each_statements
                (fun r i stmt => instance_drawn r label info i stmt)
                (node_instance label info)) with
      (l := Py.range (resolve_count counts_map default_count label))
      (st := st) (r := r0) (st' := st1) (r' := r1)
      as (n & -> & Hall); [| |exact Htype|].
    + intros n r2 i s. apply instance_drawn_advance.
    + intros i st2 r2 st3 r3. apply node_instance_drawn.
    + exists n. split; [done|]. intros s Hs.
      destruct (Hall s Hs) as [?|(i & Hi%elem_of_range & Hd)]; [by left|].
      right. by exists i.
  - destruct (Hall stmt Hin) as [Hnil|([label info] & Hitem & i & Hi & Hd)].
    + by apply elem_of_nil in Hnil.
    + by exists label, info, i.
Qed.

(** C7, against the claim: the type string [int] is neither [STRING] nor
    [INT], yet it is not treated as [STRING].  On the schema text
    [(T: T {a int})] with [-n 1] the program prints the property with an
    integer and no quotes, and for every random source the property of type
    [int] is given an [int], whose literal is its decimal form. *)
Lemma C7_lower_case_int_is_integer :
  "int" <> "STRING" /\ "int" <> "INT"
  /\ (exists r',
        main "(T: T {a int})" (Some 1%Z) None None (Rng (fun _ => 463%nat) 0)
        = Ok ((["CREATE (T_0:T { a: 464 });"], []), r'))
  /\ forall prop_assignments r, exists z,
       assign_property ("a", "int") prop_assignments r
       = Ok (Dict.set prop_assignments "a" (VInt z), advance 1 r)
       /\ repr (VInt z) = pretty z.
Proof.
  split; [discriminate|]. split; [discriminate|]. split.
  - eexists. vm_compute. reflexivity.
  - intros pa r. eexists. split; [by apply assign_property_int | reflexivity].
Qed.

(** C7, amended: the type of a property is compared after upper-casing, so
    [int] or [Int] is an integer type like [INT], and only a type whose
    upper-case form is not [INT] is given a string.

    [generate_cypher_for_nodes] never raises, and every statement it returns
    is the statement of an instance [i], below the resolved count, of a
    declared node type, for values [vals], one for each declared property in
    order, which the loop over the properties computes from the random source
    of the run some draws further on.
    - For a property whose type in upper case is [INT] the value is the
      [int] [1 + x mod 1000] for a draw [x] of the source, between 1 and
      1000, written in decimal without quotes.
    - For a property whose type in upper case is anything else, [STRING]
      included, the value is a [str] of 8 upper-case ASCII letters, the
      [k]-th being the letter that the [k]-th of 8 consecutive draws selects
      in [string.ascii_uppercase], written between single quotes.
    The statement lists [name: literal] for the assigned names in order; with
    distinct property names these are the declared properties, each with its
    own value.

    The values are random in that the code reads them off fresh draws of the
    source, one draw for an integer and eight for a string, and in that every
    integer between 1 and 1000 and every string of 8 upper-case letters is
    the value for some source. *)
Theorem C7_property_values_by_upper_case_type
    (nodes_dict : Dict.t node_info) (counts_map : gmap string Z)
    (default_count : Z) (r : rng) :
  (exists statements node_ids r',
     generate_cypher_for_nodes nodes_dict counts_map default_count r
     = Ok ((statements, node_ids), r')
     /\ forall stmt, stmt ∈ statements ->
        exists label info i vals,
          (label, info) ∈ nodes_dict
          /\ (0 <= i < resolve_count counts_map default_count label)%Z
          /\ Forall2 (fun p v =>
                exists q, (pos r <= q)%nat
                /\ (Py.upper p.2 = "INT" ->
                      exists z, v = VInt z
                        /\ z = (1 + Z.of_nat (draws r q) mod 1000)%Z
                        /\ (1 <= z <= 1000)%Z
                        /\ repr v = pretty z)
                /\ (Py.upper p.2 <> "INT" ->
                      exists s, v = VStr s
                        /\ String.length s = 8%nat
                        /\ all_chars is_ascii_upper s = true
                        /\ (forall k, (k < 8)%nat ->
                              String.get k s
                              = Some (letter (draws r (q + k)%nat)))
                        /\ repr v = "'" +:+ s +:+ "'"))
              (properties info) vals
          /\ (exists n m,
                for_each (properties info) assign_property [] (advance n r)
                = Ok (assign_all (properties info).*1 vals, advance m r))
          /\ stmt = "CREATE (" +:+ node_id_of label i +:+ ":"
                      +:+ external_label info +:+ " { "
                      +:+ Py.join ", "
                            ((fun kv => kv.1 +:+ ": " +:+ repr kv.2) <$>
                               assign_all (properties info).*1 vals)
                      +:+ " });"
          /\ (NoDup (properties info).*1 ->
              assign_all (properties info).*1 vals
              = zip (properties info).*1 vals))
  /\ (forall prop_name prop_type prop_assignments r0,
        (Py.upper prop_type = "INT" ->
           assign_property (prop_name, prop_type) prop_assignments r0
           = Ok (Dict.set prop_assignments prop_name
                   (VInt (1 + Z.of_nat (draws r0 (pos r0)) mod 1000)),
                 advance 1 r0))
        /\ (Py.upper prop_type <> "INT" ->
           exists s,
             assign_property (prop_name, prop_type) prop_assignments r0
             = Ok (Dict.set prop_assignments prop_name (VStr s), advance 8 r0)
             /\ String.length s = 8%nat
             /\ forall k, (k < 8)%nat ->
                  String.get k s = Some (letter (draws r0 (pos r0 + k)%nat))))
  /\ (forall prop_name prop_type prop_assignments,
        (Py.upper prop_type = "INT" ->
           forall z, (1 <= z <= 1000)%Z ->
             exists r0 r1,
               assign_property (prop_name, prop_type) prop_assignments r0
               = Ok (Dict.set prop_assignments prop_name (VInt z), r1))
        /\ (Py.upper prop_type <> "INT" ->
           forall s, String.length s = 8%nat ->
             all_chars is_ascii_upper s = true ->
             exists r0 r1,
               assign_property (prop_name, prop_type) prop_assignments r0
               = Ok (Dict.set prop_assignments prop_name (VStr s), r1)))
  /\ Py.upper "STRING" = "STRING" /\ Py.upper "INT" = "INT"
  /\ Py.upper "int" = "INT" /\ Py.upper "Int" = "INT"
  /\ (forall n, ascii_uppercase !! (n mod 26)%nat = Some (letter n)
                /\ is_ascii_upper (letter n) = true).
Proof.
  split; [|split; [|split]].
  - destruct (generate_cypher_for_nodes_ok nodes_dict counts_map default_count r)
      as (blocks & node_ids & n & Hrun & _).
    exists (concat blocks), node_ids, (advance n r). split; [done|].
    intros stmt Hstmt.
    destruct (generate_cypher_for_nodes_drawn _ _ _ _ _ _ _ _ Hrun Hstmt)
      as (label & info & i & Hin & Hi & vals & Hvals & Hloop & ->).
    exists label, info, i, vals. split; [done|]. split; [done|].
    split; [exact Hvals|]. split; [exact Hloop|]. split; [reflexivity|].
    apply assign_all_distinct.
  - intros name type pa r0. split.
    + apply assign_property_int.
    + intros Hstr. eexists. split; [by apply assign_property_str|].
      split; [by rewrite length_string_of_list, letters_from_length|].
      intros k Hk. by apply letters_from_get.
  - intros name type pa. split.
    + intros Hint z Hz. exists (Rng (fun _ => Z.to_nat (z - 1)) 0). eexists.
      rewrite assign_property_int by done. simpl. do 4 f_equal.
      rewrite Z2Nat.id, Z.mod_small by lia. lia.
    + intros Hstr s Hlen Hup.
      exists (Rng (fun k => rank (default "A"%char (String.get k s))) 0).
      eexists. rewrite assign_property_str by done. cbn [draws pos].
      by rewrite letters_from_reach.
  - repeat (split; [reflexivity|]).
    intros n. split; [apply ascii_uppercase_lookup | apply letter_upper].
Qed.

(** C8.  On the schema text [(PersonType: Person {name STRING, age INT})]
    with [-n 2], [-e 0] and no count file, for every random source, the
    program prints exactly two node statements, for [PersonType_0] and
    [PersonType_1] with the external label [Person], each with a [name] of 8
    upper-case letters between single quotes and an unquoted [age] between 1
    and 1000, and no relationship statement. *)
Theorem C8_person_scenario (r : rng) :
  exists s0 z0 s1 z1 r',
    main "(PersonType: Person {name STRING, age INT})"
      (Some 2%Z) (Some 0%Z) None r
    = Ok (([ "CREATE (PersonType_0:Person { name: '" +:+ s0 +:+ "', age: "
               +:+ pretty z0 +:+ " });";
             "CREATE (PersonType_1:Person { name: '" +:+ s1 +:+ "', age: "
               +:+ pretty z1 +:+ " });" ],
           []), r')
    /\ String.length s0 = 8%nat /\ all_chars is_ascii_upper s0 = true
    /\ (1 <= z0 <= 1000)%Z
    /\ String.length s1 = 8%nat /\ all_chars is_ascii_upper s1 = true
    /\ (1 <= z1 <= 1000)%Z.
Proof.
  pose (info := NodeInfo "Person" [("name", "STRING"); ("age", "INT")]).
  assert (Hparse :
    parse_pg_schema "(PersonType: Person {name STRING, age INT})"
    = Ok ([("PersonType", info)], [])) by (vm_compute; reflexivity).
  destruct (generate_cypher_for_nodes_ok [("PersonType", info)] ∅ 2 r)
    as (blocks & node_ids & n & Hrun & Hblocks & _).
  apply Forall2_cons_inv_l in Hblocks as (block & bs & Hblock & Hnil & ->).
  apply Forall2_nil_inv_l in Hnil as ->.
  unfold block_ok in Hblock. simpl in Hblock.
  change (Py.range (resolve_count ∅ 2 "PersonType")) with [0%Z; 1%Z] in Hblock.
  apply Forall2_cons_inv_l in Hblock as (st0 & b1 & H0 & Hblock & ->).
  apply Forall2_cons_inv_l in Hblock as (st1 & b2 & H1 & Hblock & ->).
  apply Forall2_nil_inv_l in Hblock as ->.
  assert (Hinst : forall i st, instance_statement "PersonType" info i st ->
    exists s z, st = "CREATE (" +:+ node_id_of "PersonType" i
                       +:+ ":Person { name: '" +:+ s +:+ "', age: "
                       +:+ pretty z +:+ " });"
      /\ String.length s = 8%nat /\ all_chars is_ascii_upper s = true
      /\ (1 <= z <= 1000)%Z).
  { intros i st (vals & Hvals & ->). simpl in Hvals.
    apply Forall2_cons_inv_l in Hvals as (v1 & vs & Hv1 & Hvals & ->).
    apply Forall2_cons_inv_l in Hvals as (v2 & vs' & Hv2 & Hvals & ->).
    apply Forall2_nil_inv_l in Hvals as ->.
    change (kind_of ("name", "STRING").2) with KString in Hv1.
    change (kind_of ("age", "INT").2) with KInt in Hv2.
    destruct Hv1 as (s & -> & Hlen & Hup & Hrepr).
    destruct Hv2 as (z & -> & Hz & _).
    exists s, z. split; [|done].
    unfold node_statement, prop_entry. simpl in *. rewrite Hrepr.
    rewrite !string_app_assoc. reflexivity. }
  destruct (Hinst _ _ H0) as (s0 & z0 & -> & ? & ? & ?).
  destruct (Hinst _ _ H1) as (s1 & z1 & -> & ? & ? & ?).
  exists s0, z0, s1, z1, (advance n r).
  split; [|done].
  unfold main. monad_unfold. rewrite Hparse. cbn [from_option]. unfold id.
  rewrite Hrun. reflexivity.
Qed.

(** ** The relationship generator and its trace *)

Lemma rel_attempt_trace possible_starts possible_ends external_rel_label i
    statements r :
  rel_attempt possible_starts possible_ends external_rel_label i statements r
  = match trace_attempt possible_starts possible_ends i r with
    | Ok (a, r') =>
        Ok (statements ++ attempt_statements external_rel_label a, r')
    | Raise e => Raise e
    end.
Proof.
  unfold rel_attempt, trace_attempt. monad_unfold.
  destruct (is_nil possible_starts || is_nil possible_ends).
  - simpl. by rewrite app_nil_r.
  - destruct (random_choice possible_starts r) as [[s_node r1]|]; [|done].
    destruct (random_choice possible_ends r1) as [[e_node r2]|]; [|done].
    simpl. destruct (negb (String.eqb s_node e_node)); [done|].
    by rewrite app_nil_r.
Qed.

Lemma rel_attempts_trace possible_starts possible_ends external_rel_label
    (indices : list Z) statements r :
  for_each indices
    (rel_attempt possible_starts possible_ends external_rel_label) statements r
  = match map_gen (trace_attempt possible_starts possible_ends) indices r with
    | Ok (l, r') =>
        Ok (statements ++ (l ≫= attempt_statements external_rel_label), r')
    | Raise e => Raise e
    end.
Proof.
  revert statements r. induction indices as [|i indices IH]; intros statements r.
  - simpl. monad_unfold. by rewrite app_nil_r.
  - cbn [for_each map_gen]. monad_unfold. rewrite rel_attempt_trace.
    destruct (trace_attempt possible_starts possible_ends i r)
      as [[a r1]|]; [|done].
    rewrite IH.
    destruct (map_gen (trace_attempt possible_starts possible_ends) indices r1)
      as [[l r2]|]; [|done].
    by rewrite <- app_assoc.
Qed.

Lemma rel_type_trace node_ids counts_map default_count rel statements r :
  rel_type node_ids counts_map default_count rel statements r
  = match trace_type node_ids counts_map default_count rel r with
    | Ok (o, r') => Ok (statements ++ outcome_statements rel o, r')
    | Raise e => Raise e
    end.
Proof.
  destruct rel as [[[internal_rel_label start_label] end_label] external_rel_label].
  unfold rel_type, trace_type. monad_unfold.
  destruct (negb (has_key node_ids start_label)
            || negb (has_key node_ids end_label)).
  - simpl. by rewrite app_nil_r.
  - destruct (lookup_key node_ids start_label r) as [[possible_starts r1]|]; [|done].
    destruct (lookup_key node_ids end_label r1) as [[possible_ends r2]|]; [|done].
    rewrite rel_attempts_trace.
    by destruct (map_gen _ _ r2) as [[l r3]|].
Qed.

Lemma generate_relationships_trace rels node_ids counts_map default_count
    statements r :
  for_each rels (rel_type node_ids counts_map default_count) statements r
  = match trace_relationships rels node_ids counts_map default_count r with
    | Ok (tr, r') =>
        Ok (statements ++ concat (zip_with outcome_statements rels tr), r')
    | Raise e => Raise e
    end.
Proof.
  unfold trace_relationships. revert statements r.
  induction rels as [|rel rels IH]; intros statements r.
  - simpl. monad_unfold. by rewrite app_nil_r.
  - cbn [for_each map_gen]. monad_unfold. rewrite rel_type_trace.
    destruct (trace_type node_ids counts_map default_count rel r)
      as [[o r1]|]; [|done].
    rewrite IH.
    destruct (map_gen (trace_type node_ids counts_map default_count) rels r1)
      as [[tr r2]|]; [|done].
    simpl. by rewrite <- app_assoc.
Qed.

Lemma is_nil_false {A} (l : list A) : is_nil l = false <-> l <> [].
Proof. by destruct l. Qed.

Lemma trace_attempt_sampled possible_starts possible_ends i r :
  is_nil possible_starts || is_nil possible_ends = false ->
  exists a, trace_attempt possible_starts possible_ends i r
            = Ok (a, advance 2 r)
    /\ sampled_from possible_starts possible_ends a.
Proof.
  intros Hne. unfold trace_attempt. rewrite Hne.
  apply orb_false_elim in Hne as [Hs%is_nil_false He%is_nil_false].
  destruct (random_choice_ok possible_starts r Hs) as (s_node & Hrs & Hins).
  destruct (random_choice_ok possible_ends (advance 1 r) He)
    as (e_node & Hre & Hine).
  monad_unfold. rewrite Hrs, Hre, advance_advance.
  exists (Sampled s_node e_node). split; [done|]. by exists s_node, e_node.
Qed.

Lemma trace_attempts_sampled possible_starts possible_ends (indices : list Z) r :
  is_nil possible_starts || is_nil possible_ends = false ->
  exists l, map_gen (trace_attempt possible_starts possible_ends) indices r
            = Ok (l, advance (2 * length indices) r)
    /\ length l = length indices
    /\ Forall (sampled_from possible_starts possible_ends) l.
Proof.
  intros Hne. revert r. induction indices as [|i indices IH]; intros r.
  - exists []. simpl. monad_unfold. by rewrite advance_0.
  - destruct (trace_attempt_sampled _ _ i r Hne) as (a & Ha & Hfrom).
    destruct (IH (advance 2 r)) as (l & Hl & Hlen & Hall).
    exists (a :: l). cbn [map_gen]. monad_unfold.
    rewrite Ha, Hl, advance_advance.
    split; [|split; [simpl; lia | by constructor]].
    do 3 f_equal. simpl. lia.
Qed.

Lemma trace_attempts_skipped possible_starts possible_ends (indices : list Z) r :
  is_nil possible_starts || is_nil possible_ends = true ->
  map_gen (trace_attempt possible_starts possible_ends) indices r
  = Ok (replicate (length indices) Skipped, r).
Proof.
  intros He. revert r. induction indices as [|i indices IH]; intros r; [done|].
  cbn [map_gen]. monad_unfold. unfold trace_attempt at 1. rewrite He.
  monad_unfold. by rewrite IH.
Qed.

Lemma trace_type_ok node_ids counts_map default_count rel r :
  exists o n,
    trace_type node_ids counts_map default_count rel r = Ok (o, advance n r)
    /\ outcome_ok node_ids counts_map default_count rel o.
Proof.
  destruct rel as [[[internal_rel_label start_label] end_label] external_rel_label].
  unfold trace_type, outcome_ok, has_key, lookup_key, rel_start, rel_end,
    rel_internal. simpl.
  destruct (node_ids !! start_label) as [possible_starts|]; simpl;
    [|exists Undeclared, 0%nat; monad_unfold; by rewrite advance_0].
  destruct (node_ids !! end_label) as [possible_ends|]; simpl;
    [|exists Undeclared, 0%nat; monad_unfold; by rewrite advance_0].
  monad_unfold.
  destruct (is_nil possible_starts || is_nil possible_ends) eqn:He.
  - rewrite trace_attempts_skipped by done.
    eexists _, 0%nat. rewrite advance_0, length_range. by split.
  - edestruct (trace_attempts_sampled possible_starts possible_ends) as
      (l & Hl & Hlen & Hall); [done|].
    rewrite Hl. eexists _, _. split; [done|].
    exists l. rewrite Hlen, length_range. done.
Qed.

(** The relationship generator never raises; its statements are those of
    its trace, type by type and attempt by attempt. *)
Lemma generate_relationships_ok rels node_ids counts_map default_count r :
  exists tr n,
    trace_relationships rels node_ids counts_map default_count r
    = Ok (tr, advance n r)
    /\ generate_cypher_for_relationships rels node_ids counts_map default_count r
       = Ok (concat (zip_with outcome_statements rels tr), advance n r)
    /\ Forall2 (outcome_ok node_ids counts_map default_count) rels tr.
Proof.
  unfold generate_cypher_for_relationships.
  rewrite generate_relationships_trace. unfold trace_relationships.
  revert r. induction rels as [|rel rels IH]; intros r.
  - exists [], 0%nat. simpl. monad_unfold. rewrite advance_0. by repeat split.
  - destruct (trace_type_ok node_ids counts_map default_count rel r)
      as (o & n & Ho & Hok).
    destruct (IH (advance n r)) as (tr & m & Htr & Hgen & Hall).
    exists (o :: tr), (m + n)%nat. cbn [map_gen]. monad_unfold.
    rewrite Ho, Htr, advance_advance. by repeat split; [constructor|..]; try done.
Qed.

(** ** The patterns *)

Lemma star_continues {R} cls (k : string -> option R) s w r :
  Re.star cls k s = Some (w, r) -> exists s', k s' = Some r.
Proof.
  revert w. induction s as [|ch s IH]; intros w; simpl.
  - destruct (k "") as [r'|] eqn:Hk; simpl; [|done].
    intros [= _ <-]. eauto.
  - assert (Hstop : (r' ← k (String ch s); Some ("", r')) = Some (w, r) ->
                    exists s', k s' = Some r).
    { destruct (k (String ch s)) as [r'|] eqn:Hk; simpl; [|done].
      intros [= _ <-]. eauto. }
    destruct (cls ch); [|done].
    destruct (Re.star cls k s) as [[w' r']|] eqn:Hstar; [|done].
    intros [= _ <-]. eauto.
Qed.

Lemma match_here_groups p s gs :
  Re.match_here p s = Some gs -> length gs = Re.groups p.
Proof.
  revert s gs. induction p as [|[c|cls group|cls group] p IH]; intros s gs; simpl.
  - by intros [= <-].
  - destruct s as [|ch s]; [done|]. destruct (Ascii.eqb ch c); [apply IH | done].
  - destruct (Re.star cls (Re.match_here p) s) as [[w gs']|] eqn:Hstar;
      simpl; [|done].
    intros [= <-]. apply star_continues in Hstar as [s' Hs'].
    apply IH in Hs'. destruct group; simpl; lia.
  - destruct s as [|ch s]; [done|]. destruct (cls ch); [|done].
    destruct (Re.star cls (Re.match_here p) s) as [[w gs']|] eqn:Hstar;
      simpl; [|done].
    intros [= <-]. apply star_continues in Hstar as [s' Hs'].
    apply IH in Hs'. destruct group; simpl; lia.
Qed.

Lemma search_groups p s gs :
  Re.search p s = Some gs -> length gs = Re.groups p.
Proof.
  induction s as [|ch s IH]; simpl.
  - destruct (Re.match_here p "") as [gs'|] eqn:Hm; [|done].
    intros [= <-]. by eapply match_here_groups.
  - destruct (Re.match_here p (String ch s)) as [gs'|] eqn:Hm; [|exact IH].
    intros [= <-]. by eapply match_here_groups.
Qed.

Lemma node_pattern_groups s gs :
  Re.search node_pattern s = Some gs ->
  exists internal_label external_label properties_str,
    gs = [internal_label; external_label; properties_str].
Proof.
  intros H%search_groups. change (Re.groups node_pattern) with 3%nat in H.
  destruct gs as [|a [|b [|c [|]]]]; try discriminate. eauto.
Qed.

Lemma relationship_pattern_groups s gs :
  Re.search relationship_pattern s = Some gs ->
  exists start_label internal_rel_label external_rel_label end_label,
    gs = [start_label; internal_rel_label; external_rel_label; end_label].
Proof.
  intros H%search_groups. change (Re.groups relationship_pattern) with 4%nat in H.
  destruct gs as [|a [|b [|c [|d [|]]]]]; try discriminate. eauto.
Qed.

(** ** The parser *)

Lemma parse_pair_entry pair props :
  parse_pair pair props
  = Ok (props ++ match pair_entry pair with Some e => [e] | None => [] end).
Proof.
  unfold parse_pair, pair_entry.
  destruct (Py.split pair) as [|p0 [|p1 parts]]; simpl;
    by rewrite ?app_nil_r.
Qed.

Lemma parse_pairs_entries pairs props :
  for_each pairs parse_pair props = Ok (props ++ omap pair_entry pairs).
Proof.
  revert props. induction pairs as [|pair pairs IH]; intros props; simpl.
  - by rewrite app_nil_r.
  - monad_unfold. rewrite parse_pair_entry, IH, <- app_assoc.
    by destruct (pair_entry pair).
Qed.

Lemma parse_properties_entries properties_str :
  parse_properties properties_str
  = Ok (if Py.is_empty (Py.strip properties_str) then []
        else omap pair_entry (Py.strip <$> Py.split_on "," properties_str)).
Proof.
  unfold parse_properties.
  destruct (Py.is_empty (Py.strip properties_str)); [done|].
  apply parse_pairs_entries.
Qed.

(** What a line adds to the two results. *)
Lemma parse_line_spec line nodes_dict relationships_list :
  parse_line line (nodes_dict, relationships_list)
  = Ok (if Py.is_empty (Py.strip line) then (nodes_dict, relationships_list)
        else
          (match Re.search node_pattern (Py.strip line) with
           | Some [internal_label; external_label; properties_str] =>
               Dict.set nodes_dict internal_label
                 (NodeInfo external_label
                    (if Py.is_empty (Py.strip properties_str) then []
                     else omap pair_entry
                            (Py.strip <$> Py.split_on "," properties_str)))
           | _ => nodes_dict
           end,
           match Re.search relationship_pattern (Py.strip line) with
           | Some [start_label; internal_rel_label; external_rel_label;
                   end_label] =>
               relationships_list ++
                 [(internal_rel_label, start_label, end_label,
                   external_rel_label)]
           | _ => relationships_list
           end)).
Proof.
  unfold parse_line. destruct (Py.is_empty (Py.strip line)); [done|].
  monad_unfold.
  destruct (Re.search node_pattern (Py.strip line)) as [gs|] eqn:Hn.
  - destruct (node_pattern_groups _ _ Hn) as (a & b & c & ->).
    rewrite parse_properties_entries.
    destruct (Re.search relationship_pattern (Py.strip line)) as [gs|] eqn:Hr;
      [|done].
    by destruct (relationship_pattern_groups _ _ Hr) as (?&?&?&?& ->).
  - destruct (Re.search relationship_pattern (Py.strip line)) as [gs|] eqn:Hr;
      [|done].
    by destruct (relationship_pattern_groups _ _ Hr) as (?&?&?&?& ->).
Qed.

Lemma parse_lines_total lines st :
  exists st', for_each lines parse_line st = Ok st'.
Proof.
  revert st. induction lines as [|line lines IH]; intros [nodes rels];
    cbn [for_each].
  - by eexists.
  - monad_unfold. rewrite parse_line_spec. apply IH.
Qed.

Lemma parse_pg_schema_total schema_text :
  exists st, parse_pg_schema schema_text = Ok st.
Proof. apply parse_lines_total. Qed.

(** ** The node dictionary of the parser is a dict *)

Lemma dict_get_set {V} (d : Dict.t V) k v : Dict.get (Dict.set d k v) k = Some v.
Proof.
  induction d as [|[k' v'] d IH]; simpl.
  - by rewrite String.eqb_refl.
  - destruct (String.eqb_spec k' k) as [->|Hne]; simpl.
    + by rewrite String.eqb_refl.
    + by destruct (String.eqb_spec k' k).
Qed.

Lemma dict_set_keys {V} (d : Dict.t V) k v :
  Dict.keys (Dict.set d k v)
  = if decide (k ∈ Dict.keys d) then Dict.keys d else Dict.keys d ++ [k].
Proof.
  induction d as [|[k' v'] d IH]; cbn [Dict.set].
  - rewrite decide_False; [done|]. intros H. by apply elem_of_nil in H.
  - change (Dict.keys ((k', v') :: d)) with (k' :: Dict.keys d).
    destruct (String.eqb_spec k' k) as [->|Hne].
    + rewrite decide_True; [done | apply elem_of_cons; by left].
    + change (Dict.keys ((k', v') :: Dict.set d k v))
        with (k' :: Dict.keys (Dict.set d k v)).
      rewrite IH. destruct (decide (k ∈ Dict.keys d)) as [Hin|Hnin].
      * rewrite decide_True; [done | apply elem_of_cons; by right].
      * rewrite decide_False; [done|].
        intros [?|?]%elem_of_cons; [congruence | done].
Qed.

Lemma dict_set_NoDup {V} (d : Dict.t V) k v :
  NoDup (Dict.keys d) -> NoDup (Dict.keys (Dict.set d k v)).
Proof.
  intros Hnd. rewrite dict_set_keys.
  destruct (decide (k ∈ Dict.keys d)) as [Hin|Hnin]; [done|].
  apply NoDup_app. split; [done|]. split; [|apply NoDup_singleton].
  intros x Hx ->%list_elem_of_singleton. done.
Qed.

Lemma parse_lines_NoDup lines nodes_dict relationships_list st :
  NoDup (Dict.keys nodes_dict) ->
  for_each lines parse_line (nodes_dict, relationships_list) = Ok st ->
  NoDup (Dict.keys st.1).
Proof.
  revert nodes_dict relationships_list.
  induction lines as [|line lines IH]; intros nodes rels Hnd; cbn [for_each].
  - by intros [= <-].
  - monad_unfold. rewrite parse_line_spec.
    destruct (Py.is_empty (Py.strip line)); [by apply IH|].
    apply IH.
    destruct (Re.search node_pattern (Py.strip line)) as [gs|] eqn:Hn; [|done].
    destruct (node_pattern_groups _ _ Hn) as (?&?&?& ->).
    by apply dict_set_NoDup.
Qed.

(** The keys of the dictionary the parser returns are distinct. *)
Lemma parse_pg_schema_NoDup schema_text nodes_dict relationships_list :
  parse_pg_schema schema_text = Ok (nodes_dict, relationships_list) ->
  NoDup (Dict.keys nodes_dict).
Proof.
  intros H. apply (parse_lines_NoDup _ [] [] _ (NoDup_nil_2 (A := string))) in H.
  exact H.
Qed.



(** ** Matching a well-formed node line *)

Lemma star_greedy {R} cls (k : string -> option R) w rest r :
  all_chars cls w = true -> head_fails cls rest -> k rest = Some r ->
  Re.star cls k (w +:+ rest) = Some (w, r).
Proof.
  intros Hw Hrest Hk. induction w as [|c w IH].
  - change ("" +:+ rest) with rest.
    destruct rest as [|ch rest]; simpl in *; [by rewrite Hk|].
    rewrite Hrest, Hk. done.
  - apply andb_prop in Hw as [Hc Hw].
    change (String c w +:+ rest) with (String c (w +:+ rest)).
    cbn [Re.star]. rewrite Hc, (IH Hw). done.
Qed.

Lemma match_lit c p s :
  Re.match_here (Re.Lit c :: p) (String c s) = Re.match_here p s.
Proof. simpl. by rewrite Ascii.eqb_refl. Qed.

Lemma match_star cls group p w rest gs :
  all_chars cls w = true -> head_fails cls rest ->
  Re.match_here p rest = Some gs ->
  Re.match_here (Re.Star cls group :: p) (w +:+ rest)
  = Some (Re.add_group group w gs).
Proof.
  intros Hw Hrest Hk. cbn [Re.match_here].
  by rewrite (star_greedy cls _ w rest gs Hw Hrest Hk).
Qed.

Lemma match_plus cls group p w rest gs :
  all_chars cls w = true -> w <> "" -> head_fails cls rest ->
  Re.match_here p rest = Some gs ->
  Re.match_here (Re.Plus cls group :: p) (w +:+ rest)
  = Some (Re.add_group group w gs).
Proof.
  intros Hw Hne Hrest Hk. destruct w as [|c w]; [done|].
  apply andb_prop in Hw as [Hc Hw].
  change (String c w +:+ rest) with (String c (w +:+ rest)).
  cbn [Re.match_here]. rewrite Hc.
  by rewrite (star_greedy cls _ w rest gs Hw Hrest Hk).
Qed.

Lemma head_fails_after cls ws c tail :
  all_chars Py.isspace ws = true ->
  (forall ch, Py.isspace ch = true -> cls ch = false) ->
  cls c = false ->
  head_fails cls (ws +:+ String c tail).
Proof.
  intros Hws Hcls Hc. destruct ws as [|ch ws]; [exact Hc|].
  apply andb_prop in Hws as [Hch _]. simpl. auto.
Qed.

Lemma space_not_word ch : Py.isspace ch = true -> Py.isword ch = false.
Proof.
  destruct ch as [[] [] [] [] [] [] [] []]; intros H;
    try discriminate H; reflexivity.
Qed.

Lemma word_not_space ch : Py.isword ch = true -> Py.isspace ch = false.
Proof.
  intros Hw. destruct (Py.isspace ch) eqn:Hs; [|done].
  apply space_not_word in Hs. congruence.
Qed.

Lemma head_fails_word w rest :
  all_chars Py.isword w = true -> w <> "" ->
  head_fails Py.isspace (w +:+ rest).
Proof.
  destruct w as [|c w]; [done|]. intros [Hc _]%andb_prop _.
  simpl. by apply word_not_space.
Qed.

Lemma match_star_nothing cls group p rest gs :
  head_fails cls rest -> Re.match_here p rest = Some gs ->
  Re.match_here (Re.Star cls group :: p) rest
  = Some (Re.add_group group "" gs).
Proof. intros. by apply (match_star cls group p "" rest gs). Qed.

Lemma match_lit_app c p s :
  Re.match_here (Re.Lit c :: p) (String c "" +:+ s) = Re.match_here p s.
Proof. apply match_lit. Qed.

Lemma match_star_unfold cls group p s :
  Re.match_here (Re.Star cls group :: p) s
  = '(w, gs) ← Re.star cls (Re.match_here p) s; Some (Re.add_group group w gs).
Proof. reflexivity. Qed.

Lemma search_cons p c s :
  Re.search p (String c s)
  = match Re.match_here p (String c s) with
    | Some gs => Some gs
    | None => Re.search p s
    end.
Proof. reflexivity. Qed.

Lemma search_here p s gs :
  Re.match_here p s = Some gs -> Re.search p s = Some gs.
Proof. intros H. destruct s; simpl; by rewrite H. Qed.

Lemma search_lit_absent c p s :
  Py.contains c s = false -> Re.search (Re.Lit c :: p) s = None.
Proof.
  induction s as [|ch s IH]; [done|].
  cbn [Py.contains]. intros [Hc Hs]%orb_false_elim.
  cbn [Re.search Re.match_here].
  rewrite Ascii.eqb_sym, Hc. auto.
Qed.

Lemma contains_app c s t :
  Py.contains c (s +:+ t) = Py.contains c s || Py.contains c t.
Proof.
  induction s as [|ch s IH]; [done|].
  change (String ch s +:+ t) with (String ch (s +:+ t)).
  cbn [Py.contains]. by rewrite IH, orb_assoc.
Qed.

Lemma all_chars_contains P c s :
  all_chars P s = true -> P c = false -> Py.contains c s = false.
Proof.
  intros Hs Hc. induction s as [|ch s IH]; [done|].
  apply andb_prop in Hs as [Hch Hs]. cbn [Py.contains].
  rewrite (IH Hs), orb_false_r.
  destruct (Ascii.eqb_spec c ch) as [->|]; congruence.
Qed.

(** A repetition followed by a literal fails when what follows the repeated
    characters starts with neither a character of the class nor the
    literal. *)
Lemma star_then_lit_fails cls c p ws rest :
  all_chars cls ws = true -> cls c = false ->
  head_fails cls rest -> head_fails (fun ch => Ascii.eqb ch c) rest ->
  Re.star cls (Re.match_here (Re.Lit c :: p)) (ws +:+ rest) = None.
Proof.
  intros Hws Hc Hcls Hlit. induction ws as [|ch ws IH].
  - change ("" +:+ rest) with rest.
    destruct rest as [|c0 tail]; [done|]. simpl in Hcls, Hlit.
    cbn [Re.star Re.match_here]. by rewrite Hlit, Hcls.
  - apply andb_prop in Hws as [Hch Hws].
    change (String ch ws +:+ rest) with (String ch (ws +:+ rest)).
    cbn [Re.star]. rewrite Hch, (IH Hws). cbn [Re.match_here].
    destruct (Ascii.eqb_spec ch c) as [->|]; [congruence | done].
Qed.

Lemma head_fails_app (P Q : ascii -> bool) w rest :
  all_chars P w = true -> w <> "" ->
  (forall ch, P ch = true -> Q ch = false) ->
  head_fails Q (w +:+ rest).
Proof.
  destruct w as [|c w]; [done|]. intros [Hc _]%andb_prop _ HPQ.
  simpl. auto.
Qed.

Lemma rstrip_stable_app s t :
  Py.rstrip t = t /\ t <> "" -> Py.rstrip (s +:+ t) = s +:+ t /\ s +:+ t <> "".
Proof.
  intros [Ht Hne]. induction s as [|c s [IH IHne]]; [done|].
  change (String c s +:+ t) with (String c (s +:+ t)).
  split; [|done]. cbn [Py.rstrip]. rewrite IH.
  destruct (s +:+ t); [done|]. by rewrite andb_false_r.
Qed.

Section EmptyNodeLine.

Variables ws1 a ws2 ws3 b ws4 ws5 ws6 : string.
Hypothesis Hws1 : all_chars Py.isspace ws1 = true.
Hypothesis Hws2 : all_chars Py.isspace ws2 = true.
Hypothesis Hws3 : all_chars Py.isspace ws3 = true.
Hypothesis Hws4 : all_chars Py.isspace ws4 = true.
Hypothesis Hws5 : all_chars Py.isspace ws5 = true.
Hypothesis Hws6 : all_chars Py.isspace ws6 = true.
Hypothesis Ha : all_chars Py.isword a = true.
Hypothesis Hb : all_chars Py.isword b = true.
Hypothesis Ha_ne : a <> "".
Hypothesis Hb_ne : b <> "".

Lemma match_empty_node_line :
  Re.match_here node_pattern (empty_node_line ws1 a ws2 ws3 b ws4 ws5 ws6)
  = Some [a; b; ""].
Proof using All.
  unfold empty_node_line, node_pattern, s_, w_.
  rewrite match_lit_app.
  apply (match_star _ false _ _ _ [a; b; ""] Hws1);
    [by apply head_fails_word|].
  apply (match_plus _ true _ _ _ [b; ""] Ha Ha_ne);
    [by apply head_fails_after; auto using space_not_word|].
  apply (match_star _ false _ _ _ [b; ""] Hws2); [reflexivity|].
  rewrite match_lit_app.
  apply (match_star _ false _ _ _ [b; ""] Hws3);
    [by apply head_fails_word|].
  apply (match_plus _ true _ _ _ [""] Hb Hb_ne);
    [by apply head_fails_after; auto using space_not_word|].
  apply (match_star _ false _ _ _ [""] Hws4); [reflexivity|].
  rewrite match_lit_app.
  apply (match_star _ false _ _ _ [""] Hws5); [reflexivity|].
  apply (match_star_nothing _ true _ _ []); [reflexivity|].
  apply (match_star_nothing _ false _ _ []); [reflexivity|].
  rewrite match_lit_app.
  apply (match_star _ false _ _ _ [] Hws6); [reflexivity|].
  rewrite match_lit. reflexivity.
Qed.

Local Abbreviation line := (empty_node_line ws1 a ws2 ws3 b ws4 ws5 ws6).

Lemma strip_empty_node_line : Py.strip line = line.
Proof using All.
  unfold Py.strip. change (Py.lstrip line) with line.
  unfold empty_node_line.
  apply (rstrip_stable_app "(").
  do 11 apply rstrip_stable_app. by split.
Qed.

Lemma search_node_empty_node_line :
  Re.search node_pattern line = Some [a; b; ""].
Proof using All. apply search_here, match_empty_node_line. Qed.

Lemma search_relationship_empty_node_line :
  Re.search relationship_pattern line = None.
Proof using All.
  unfold empty_node_line, relationship_pattern, s_.
  match goal with
  | |- Re.search _ (_ +:+ ?s) = _ => change ("(" +:+ s) with (String "(" s)
  end.
  rewrite search_cons, match_lit, match_star_unfold.
  rewrite star_then_lit_fails; [| done | done | |].
  2:{ by apply head_fails_word. }
  2:{ apply (head_fails_app Py.isword); [done | done |].
      intros ch Hch. destruct (Ascii.eqb_spec ch ":") as [->|]; [done | done]. }
  cbn [mbind option_bind].
  apply search_lit_absent.
  rewrite contains_app, (all_chars_contains _ _ _ Hws1) by done.
  rewrite contains_app, (all_chars_contains _ _ _ Ha) by done.
  rewrite contains_app, (all_chars_contains _ _ _ Hws2) by done.
  rewrite contains_app. change (Py.contains "(" ":") with false.
  rewrite contains_app, (all_chars_contains _ _ _ Hws3) by done.
  rewrite contains_app, (all_chars_contains _ _ _ Hb) by done.
  rewrite contains_app, (all_chars_contains _ _ _ Hws4) by done.
  rewrite contains_app. change (Py.contains "(" "{") with false.
  rewrite contains_app, (all_chars_contains _ _ _ Hws5) by done.
  rewrite contains_app. change (Py.contains "(" "}") with false.
  rewrite contains_app, (all_chars_contains _ _ _ Hws6) by done.
  reflexivity.
Qed.

Lemma parse_empty_node_line nodes_dict relationships_list :
  parse_line line (nodes_dict, relationships_list)
  = Ok (Dict.set nodes_dict a (NodeInfo b []), relationships_list).
Proof using All.
  rewrite parse_line_spec, strip_empty_node_line.
  rewrite search_node_empty_node_line, search_relationship_empty_node_line.
  reflexivity.
Qed.

End EmptyNodeLine.




(** ** Counting the statements of a relationship type *)

Lemma sampled_statements_count possible_starts possible_ends erel l :
  Forall (sampled_from possible_starts possible_ends) l ->
  (length (l ≫= attempt_statements erel) + self_loops l = length l)%nat.
Proof.
  unfold self_loops.
  induction 1 as [|a l (s_node & e_node & -> & _ & _) _ IH]; [done|].
  cbn [mbind list_bind]. rewrite length_app, filter_cons. simpl.
  destruct (String.eqb s_node e_node) eqn:E; simpl.
  - destruct (decide (true = true)); [simpl; lia | done].
  - destruct (decide (false = true)); [done | simpl; lia].
Qed.

Lemma single_identifier_statements x erel l :
  Forall (sampled_from [x] [x]) l -> l ≫= attempt_statements erel = [].
Proof.
  induction 1 as [|a l (s_node & e_node & -> & Hs & He) _ IH]; [done|].
  apply list_elem_of_singleton in Hs as ->.
  apply list_elem_of_singleton in He as ->.
  cbn [mbind list_bind]. rewrite IH. simpl. by rewrite String.eqb_refl.
Qed.

Lemma outcome_declared node_ids counts_map default_count rel o :
  outcome_ok node_ids counts_map default_count rel o ->
  ids_of node_ids (rel_start rel) <> [] ->
  ids_of node_ids (rel_end rel) <> [] ->
  exists l, o = Attempts l
    /\ length l
       = Z.to_nat (resolve_count counts_map default_count (rel_internal rel))
    /\ Forall (sampled_from (ids_of node_ids (rel_start rel))
                 (ids_of node_ids (rel_end rel))) l.
Proof.
  unfold outcome_ok, ids_of.
  destruct (node_ids !! rel_start rel) as [[|s ps]|]; simpl; [done | | done].
  destruct (node_ids !! rel_end rel) as [[|e pe]|]; simpl; [done | | done].
  intros H _ _. exact H.
Qed.

Lemma outcome_empty node_ids counts_map default_count rel o :
  outcome_ok node_ids counts_map default_count rel o ->
  ids_of node_ids (rel_start rel) = [] \/ ids_of node_ids (rel_end rel) = [] ->
  o = (if has_key node_ids (rel_start rel) && has_key node_ids (rel_end rel)
       then Attempts
              (replicate
                 (Z.to_nat
                    (resolve_count counts_map default_count (rel_internal rel)))
                 Skipped)
       else Undeclared).
Proof.
  unfold outcome_ok, ids_of, has_key.
  destruct (node_ids !! rel_start rel) as [ps|]; simpl; [|done].
  destruct (node_ids !! rel_end rel) as [pe|]; simpl; [|done].
  intros H [-> | ->]; simpl in H; [done|]. by rewrite orb_true_r in H.
Qed.

Lemma skipped_statements erel n :
  replicate n Skipped ≫= attempt_statements erel = [].
Proof. induction n as [|n IH]; [done|]. simpl. exact IH. Qed.

(** The schema of the scenario of C2: two lines. *)
Lemma knows_schema_parsed :
  parse_pg_schema
    ("(PersonType: Person {})" +:+ String newline
       "(:PersonType)-[Knows: knows]->(:PersonType)")
  = Ok ([("PersonType", NodeInfo "Person" [])],
        [("Knows", "PersonType", "PersonType", "knows")]).
Proof. vm_compute. reflexivity. Qed.

(** C2.  First part, for every list of relationship types, identifier
    mapping, counts and random source: the generator returns without raising
    the statements of its trace, type by type; for a type with requested
    count [M], not negative, whose start and end labels both have identifiers,
    the trace holds exactly [M] attempts, each with a sampled start and end
    identifier, the statements of the type are [M] minus the number of
    attempts that sampled the same identifier twice, hence at most [M]: such
    an attempt is dropped and not replaced.  Second part: the schema with the
    node [(PersonType: Person {})] and the relationship
    [(:PersonType)-[Knows: knows]->(:PersonType)], with [-n 1] and [-e 5],
    yields exactly one node statement and no relationship statement. *)
Theorem C2_relationship_counts :
  (forall (rels : list relationship) (node_ids : gmap string (list string))
          (counts_map : gmap string Z) (default_count : Z) (r : rng),
     exists tr r',
       trace_relationships rels node_ids counts_map default_count r
       = Ok (tr, r')
       /\ generate_cypher_for_relationships rels node_ids counts_map
            default_count r
          = Ok (concat (zip_with outcome_statements rels tr), r')
       /\ length tr = length rels
       /\ forall i rel M,
            rels !! i = Some rel ->
            resolve_count counts_map default_count (rel_internal rel) = M ->
            (0 <= M)%Z ->
            ids_of node_ids (rel_start rel) <> [] ->
            ids_of node_ids (rel_end rel) <> [] ->
            exists l,
              tr !! i = Some (Attempts l)
              /\ Z.of_nat (length l) = M
              /\ Forall (sampled_from (ids_of node_ids (rel_start rel))
                           (ids_of node_ids (rel_end rel))) l
              /\ Z.of_nat (length (outcome_statements rel (Attempts l)))
                 = (M - Z.of_nat (self_loops l))%Z
              /\ (Z.of_nat (length (outcome_statements rel (Attempts l)))
                  <= M)%Z)
  /\ (forall r : rng,
        exists r',
          main ("(PersonType: Person {})" +:+ String newline
                  "(:PersonType)-[Knows: knows]->(:PersonType)")
            (Some 1%Z) (Some 5%Z) None r
          = Ok ((["CREATE (PersonType_0:Person {  });"], []), r')).
Proof.
  split.
  - intros rels node_ids counts_map default_count r.
    destruct (generate_relationships_ok rels node_ids counts_map default_count r)
      as (tr & n & Htr & Hgen & Hall).
    exists tr, (advance n r). split; [done|]. split; [done|].
    split; [symmetry; by eapply Forall2_length|].
    intros i rel M Hi HM Hpos Hs He.
    destruct (Forall2_lookup_l _ _ _ _ _ Hall Hi) as (o & Ho & Hok).
    destruct (outcome_declared _ _ _ _ _ Hok Hs He) as (l & -> & Hlen & Hfrom).
    rewrite HM in Hlen. exists l. split; [done|]. split; [lia|].
    split; [done|].
    pose proof (sampled_statements_count _ _ (snd rel) l Hfrom) as Hcount.
    unfold outcome_statements. lia.
  - intros r. unfold main. monad_unfold. rewrite knows_schema_parsed.
    cbn [from_option]. unfold id.
    assert (Hnodes :
      generate_cypher_for_nodes [("PersonType", NodeInfo "Person" [])] ∅ 1 r
      = Ok ((["CREATE (PersonType_0:Person {  });"],
             {[ "PersonType" := ["PersonType_0"] ]}), r)).
    { destruct r. vm_compute. reflexivity. }
    rewrite Hnodes.
    destruct (generate_relationships_ok
                [("Knows", "PersonType", "PersonType", "knows")]
                {[ "PersonType" := ["PersonType_0"] ]} ∅ 5 r)
      as (tr & n & _ & Hgen & Hall).
    rewrite Hgen.
    apply Forall2_cons_inv_l in Hall as (o & tr' & Hok & Hnil & ->).
    apply Forall2_nil_inv_l in Hnil as ->.
    destruct (outcome_declared _ _ _ _ _ Hok) as (l & -> & _ & Hfrom);
      [done | done |].
    exists (advance n r). simpl.
    change (ids_of _ _) with ["PersonType_0"] in Hfrom.
    by rewrite (single_identifier_statements _ _ _ Hfrom).
Qed.

Lemma C2_witness :
  exists tr r',
    trace_relationships [("Knows", "A", "B", "knows")]
      {[ "A" := ["A_0"]; "B" := ["B_0"; "B_1"] ]} ∅ 3%Z (Rng (fun n => n) 0)
    = Ok (tr, r')
    /\ exists l,
         tr !! 0%nat = Some (Attempts l)
         /\ Z.of_nat (length l) = 3%Z
         /\ Z.of_nat (length (outcome_statements
                                ("Knows", "A", "B", "knows") (Attempts l)))
            = (3 - Z.of_nat (self_loops l))%Z.
Proof.
  destruct (proj1 C2_relationship_counts [("Knows", "A", "B", "knows")]
              {[ "A" := ["A_0"]; "B" := ["B_0"; "B_1"] ]} ∅ 3%Z
              (Rng (fun n => n) 0))
    as (tr & r' & Htr & _ & _ & H).
  destruct (H 0%nat ("Knows", "A", "B", "knows") 3%Z)
    as (l & Hl & Hlen & _ & Hcount & _);
    [reflexivity | reflexivity | lia | vm_compute; discriminate
    | vm_compute; discriminate |].
  exists tr, r'. split; [exact Htr|]. exists l. auto.
Defined.

(** C3, against the claim: for a label that is a key of [node_ids] with an
    empty identifier list (a node type generated with count 0), the type is
    not skipped once: the inner loop runs all its iterations and the
    emptiness guard is evaluated in each of them. *)
Lemma C3_guard_evaluated_per_attempt :
  ids_of {[ "A" := [] ]} "A" = []
  /\ exists o r',
       trace_relationships [("R", "A", "A", "r")] {[ "A" := [] ]} ∅ 5%Z
         (Rng (fun n => n) 0)
       = Ok ([o], r')
       /\ o = Attempts [Skipped; Skipped; Skipped; Skipped; Skipped]
       /\ guard_evaluations o = 5%nat
       /\ o <> Undeclared.
Proof.
  split; [vm_compute; reflexivity|].
  eexists _, _. split; [vm_compute; reflexivity|]. by repeat split.
Qed.

(** C3, amended: for a relationship type whose start or end label has no
    generated identifiers, the generator emits no statement.  When one of the
    two labels is no key of [node_ids] (never declared as a node), the type is
    skipped once, before any attempt.  When both are keys and one has an
    empty list (generated with count 0), every one of the attempts of the
    type is made and skipped by the emptiness guard, evaluated per attempt. *)
Theorem C3_no_identifiers_no_statements
    (rels : list relationship) (node_ids : gmap string (list string))
    (counts_map : gmap string Z) (default_count : Z) (r : rng) :
  exists tr r',
    trace_relationships rels node_ids counts_map default_count r = Ok (tr, r')
    /\ generate_cypher_for_relationships rels node_ids counts_map
         default_count r
       = Ok (concat (zip_with outcome_statements rels tr), r')
    /\ forall i rel,
         rels !! i = Some rel ->
         ids_of node_ids (rel_start rel) = []
         \/ ids_of node_ids (rel_end rel) = [] ->
         exists o,
           tr !! i = Some o
           /\ outcome_statements rel o = []
           /\ o = (if has_key node_ids (rel_start rel)
                      && has_key node_ids (rel_end rel)
                   then Attempts
                          (replicate
                             (Z.to_nat (resolve_count counts_map default_count
                                          (rel_internal rel))) Skipped)
                   else Undeclared)
           /\ guard_evaluations o
              = (if has_key node_ids (rel_start rel)
                    && has_key node_ids (rel_end rel)
                 then Z.to_nat (resolve_count counts_map default_count
                                  (rel_internal rel))
                 else 0%nat).
Proof.
  destruct (generate_relationships_ok rels node_ids counts_map default_count r)
    as (tr & n & Htr & Hgen & Hall).
  exists tr, (advance n r). split; [done|]. split; [done|].
  intros i rel Hi Hempty.
  destruct (Forall2_lookup_l _ _ _ _ _ Hall Hi) as (o & Ho & Hok).
  exists o. split; [done|].
  rewrite (outcome_empty _ _ _ _ _ Hok Hempty).
  destruct (has_key node_ids (rel_start rel) && has_key node_ids (rel_end rel));
    simpl; rewrite ?skipped_statements, ?length_replicate; done.
Qed.

(** ** Every relationship endpoint is a generated identifier *)

Lemma outcome_statement_endpoints node_ids counts_map default_count rel o stmt :
  outcome_ok node_ids counts_map default_count rel o ->
  stmt ∈ outcome_statements rel o ->
  exists s_node e_node,
    stmt = rel_statement s_node (rel_external rel) e_node
    /\ s_node ∈ ids_of node_ids (rel_start rel)
    /\ e_node ∈ ids_of node_ids (rel_end rel)
    /\ s_node <> e_node.
Proof.
  unfold outcome_ok, ids_of.
  destruct (node_ids !! rel_start rel) as [ps|]; simpl;
    [|intros -> H; by apply elem_of_nil in H].
  destruct (node_ids !! rel_end rel) as [pe|]; simpl;
    [|intros -> H; by apply elem_of_nil in H].
  destruct (is_nil ps || is_nil pe).
  - intros ->. simpl. rewrite skipped_statements.
    intros H. by apply elem_of_nil in H.
  - intros (l & -> & _ & Hall). simpl.
    intros (a & Hstmt & Ha)%list_elem_of_bind.
    rewrite Forall_forall in Hall.
    destruct (Hall a Ha) as (s_node & e_node & -> & Hs & He).
    simpl in Hstmt. destruct (String.eqb_spec s_node e_node) as [|Hne]; simpl in Hstmt.
    + by apply elem_of_nil in Hstmt.
    + apply list_elem_of_singleton in Hstmt as ->. by exists s_node, e_node.
Qed.

Lemma trace_statement_endpoints node_ids counts_map default_count rels tr stmt :
  Forall2 (outcome_ok node_ids counts_map default_count) rels tr ->
  stmt ∈ concat (zip_with outcome_statements rels tr) ->
  exists rel s_node e_node,
    rel ∈ rels
    /\ stmt = rel_statement s_node (rel_external rel) e_node
    /\ s_node ∈ ids_of node_ids (rel_start rel)
    /\ e_node ∈ ids_of node_ids (rel_end rel)
    /\ s_node <> e_node.
Proof.
  induction 1 as [|rel o rels tr Hok _ IH]; simpl.
  - intros H. by apply elem_of_nil in H.
  - intros [Hin|Hin]%elem_of_app.
    + destruct (outcome_statement_endpoints _ _ _ _ _ _ Hok Hin)
        as (s_node & e_node & ?).
      exists rel, s_node, e_node. split; [apply elem_of_cons; by left | done].
    + destruct (IH Hin) as (rel' & s_node & e_node & Hrel & ?).
      exists rel', s_node, e_node. split; [apply elem_of_cons; by right | done].
Qed.

Lemma ids_for_created counts_map default_count label items blocks node_id :
  Forall2 (block_ok counts_map default_count) items blocks ->
  node_id ∈ ids_for counts_map default_count label items ->
  created (concat blocks) node_id.
Proof.
  induction 1 as [|[l info] block items blocks Hblock _ IH].
  - intros H. by apply elem_of_nil in H.
  - rewrite ids_for_cons. simpl. intros [Hin|Hin]%elem_of_app.
    + destruct (String.eqb_spec l label) as [->|]; [|by apply elem_of_nil in Hin].
      apply list_elem_of_fmap in Hin as (i & -> & Hi).
      apply list_elem_of_lookup_1 in Hi as [j Hj].
      destruct (Forall2_lookup_l _ _ _ _ _ Hblock Hj) as (stmt & Hstmt & Hinst).
      exists label, info, i, stmt. split; [|done].
      apply elem_of_app. left. by eapply list_elem_of_lookup_2.
    + destruct (IH Hin) as (l' & info' & i & stmt & Hstmt & ? & ?).
      exists l', info', i, stmt. split; [|done].
      apply elem_of_app. by right.
Qed.

Lemma read_csv_counts_total file : exists m, read_csv_counts file = Ok m.
Proof.
  destruct file as [rows|]; simpl; [apply read_rows_total | by eexists].
Qed.

(** C9.  First part, for every list of relationship types and identifier
    mapping: every statement of [generate_cypher_for_relationships] is the
    statement [CREATE (s)-[:ext]->(e);] of one of the relationship types, with
    [s] a member of the identifier list of the start label of the type and
    [e] a member of the list of its end label.  Second part, for the whole
    program: every relationship statement printed has as [s] and as [e]
    identifiers of instances whose node statements were printed. *)
Theorem C9_relationship_endpoints :
  (forall (rels : list relationship) (node_ids : gmap string (list string))
          (counts_map : gmap string Z) (default_count : Z) (r : rng),
     exists statements r',
       generate_cypher_for_relationships rels node_ids counts_map
         default_count r = Ok (statements, r')
       /\ forall stmt, stmt ∈ statements ->
          exists rel s_node e_node,
            rel ∈ rels
            /\ stmt = "CREATE (" +:+ s_node +:+ ")-[:" +:+ rel_external rel
                        +:+ "]->(" +:+ e_node +:+ ");"
            /\ s_node ∈ ids_of node_ids (rel_start rel)
            /\ e_node ∈ ids_of node_ids (rel_end rel))
  /\ (forall (schema_text : string) (nodes edges : option Z)
             (csv : option (option (list (list string)))) (r : rng),
        exists node_statements relationship_statements r',
          main schema_text nodes edges csv r
          = Ok ((node_statements, relationship_statements), r')
          /\ forall stmt, stmt ∈ relationship_statements ->
             exists s_node ext e_node,
               stmt = rel_statement s_node ext e_node
               /\ created node_statements s_node
               /\ created node_statements e_node).
Proof.
  split.
  - intros rels node_ids counts_map default_count r.
    destruct (generate_relationships_ok rels node_ids counts_map default_count r)
      as (tr & n & _ & Hgen & Hall).
    eexists _, _. split; [exact Hgen|]. intros stmt Hstmt.
    destruct (trace_statement_endpoints _ _ _ _ _ _ Hall Hstmt)
      as (rel & s_node & e_node & ? & ? & ? & ? & _).
    by exists rel, s_node, e_node.
  - intros schema_text nodes edges csv r.
    destruct (parse_pg_schema_total schema_text) as [[nodes_dict rels] Hparse].
    assert (Hcsv : exists m,
      match csv with
      | Some file => lift (read_csv_counts file)
      | None => mret ∅
      end r = Ok (m, r)).
    { destruct csv as [file|]; [|by eexists].
      destruct (read_csv_counts_total file) as [m Hm].
      exists m. unfold lift. by rewrite Hm. }
    destruct Hcsv as [counts_map Hcsv].
    destruct (generate_cypher_for_nodes_ok nodes_dict counts_map
                (default 4%Z nodes) r)
      as (blocks & node_ids & n & Hnodes & Hblocks & Hids).
    destruct (generate_relationships_ok rels node_ids counts_map
                (default 4%Z edges) (advance n r))
      as (tr & m & _ & Hgen & Hall).
    exists (concat blocks), (concat (zip_with outcome_statements rels tr)),
      (advance m (advance n r)).
    split.
    + unfold main. monad_unfold. rewrite Hparse, Hcsv, Hnodes, Hgen. done.
    + intros stmt Hstmt.
      destruct (trace_statement_endpoints _ _ _ _ _ _ Hall Hstmt)
        as (rel & s_node & e_node & _ & -> & Hs & He & _).
      exists s_node, (rel_external rel), e_node. split; [done|].
      unfold ids_of in Hs, He. rewrite Hids in Hs, He.
      split.
      * destruct (decide (rel_start rel ∈ Dict.keys nodes_dict));
          [|by apply elem_of_nil in Hs].
        by eapply ids_for_created.
      * destruct (decide (rel_end rel ∈ Dict.keys nodes_dict));
          [|by apply elem_of_nil in He].
        by eapply ids_for_created.
Qed.

(** * Further properties of the code *)

(** ** The two random helpers *)

(** X1.  [generate_random_string(length)] never raises and returns a string
    of exactly [length] upper-case ASCII letters, the empty string when
    [length] is zero or negative. *)
Theorem X1_generate_random_string (length : Z) (r : rng) :
  exists s r',
    generate_random_string length r = Ok (s, r')
    /\ String.length s = Z.to_nat length
    /\ all_chars is_ascii_upper s = true
    /\ ((length <= 0)%Z -> s = "").
Proof.
  unfold generate_random_string, random_choices.
  destruct (random_choices_n_ok ascii_uppercase (Z.to_nat length) r)
    as (cs & Hrun & Hlen & Hall); [done|].
  monad_unfold. rewrite Hrun.
  exists (string_of_list_ascii cs), (advance (Z.to_nat length) r).
  split; [done|]. split; [by rewrite length_string_of_list|]. split.
  - apply all_chars_of_list. eapply Forall_impl; [exact Hall|].
    apply ascii_uppercase_upper.
  - intros Hneg. replace (Z.to_nat length) with 0%nat in Hlen by lia.
    by destruct cs.
Qed.

(** X2.  [generate_random_int(min_val, max_val)] returns an integer of the
    inclusive range when [min_val <= max_val], every integer of the range
    being returned for some random source, and raises [ValueError] when
    [min_val > max_val]. *)
Theorem X2_generate_random_int (min_val max_val : Z) :
  ((min_val <= max_val)%Z ->
     (forall r, exists z r',
        generate_random_int min_val max_val r = Ok (z, r')
        /\ (min_val <= z <= max_val)%Z)
     /\ (forall z, (min_val <= z <= max_val)%Z ->
           exists r r', generate_random_int min_val max_val r = Ok (z, r')))
  /\ ((max_val < min_val)%Z ->
      forall r, generate_random_int min_val max_val r = Raise ValueError).
Proof.
  unfold generate_random_int, random_randint, next_draw. split.
  - intros Hle. destruct (Z.leb_spec min_val max_val) as [_|]; [|lia].
    monad_unfold. split.
    + intros r. eexists _, _. split; [reflexivity|].
      pose proof (Z.mod_pos_bound (Z.of_nat (draws r (pos r)))
                    (max_val - min_val + 1)). lia.
    + intros z Hz.
      exists (Rng (fun _ => Z.to_nat (z - min_val)) 0). eexists.
      simpl. do 2 f_equal.
      rewrite Z2Nat.id, Z.mod_small by lia. lia.
  - intros Hlt r. destruct (Z.leb_spec min_val max_val); [lia | done].
Qed.

(** ** The count reader as a mapping *)

Lemma read_row_binding row m :
  read_row row m
  = Ok (match row_binding row with
        | Some b => <[b.1 := b.2]> m
        | None => m
        end).
Proof.
  unfold row_binding.
  destruct row as [|r0 [|r1 rest]]; [by apply read_row_short; simpl; lia..|].
  destruct (Py.int (Py.strip r1)) as [z|e] eqn:E.
  - by apply read_row_int.
  - by eapply read_row_not_int.
Qed.

Lemma read_rows_snoc rows row m :
  for_each (rows ++ [row]) read_row m
  = m' ← for_each rows read_row m; read_row row m'.
Proof.
  rewrite for_each_result_app. monad_unfold.
  destruct (for_each rows read_row m) as [m'|]; [|done].
  simpl. monad_unfold. by destruct (read_row row m').
Qed.

(** X3.  [read_csv_counts] never raises on the rows of a file, and the
    mapping it returns holds, under each label, the count of the last row
    that has at least two columns, that stripped first column as label and an
    integer in its second column; it holds nothing under a label that no such
    row has.  For a path that is no file it returns the empty mapping. *)
Theorem X3_read_csv_counts_lookup (rows : list (list string)) :
  (exists m,
     read_csv_counts (Some rows) = Ok m
     /\ forall k,
          m !! k
          = snd <$> last (filter (fun b => b.1 = k) (omap row_binding rows)))
  /\ read_csv_counts None = Ok ∅.
Proof.
  split; [|done]. simpl.
  induction rows as [|row rows IH] using rev_ind.
  - exists ∅. split; [done|]. intros k. by rewrite lookup_empty.
  - destruct IH as (m & Hm & Hlookup).
    rewrite read_rows_snoc. monad_unfold. rewrite Hm, read_row_binding.
    eexists. split; [reflexivity|]. intros k.
    rewrite omap_app, filter_app. simpl.
    destruct (row_binding row) as [[k' z]|]; simpl.
    + rewrite filter_cons, filter_nil. simpl.
      destruct (decide (k' = k)) as [->|Hne].
      * by rewrite lookup_insert_eq, last_snoc.
      * by rewrite lookup_insert_ne, app_nil_r.
    + by rewrite filter_nil, app_nil_r.
Qed.

(** ** The node generator as a whole *)

Lemma blocks_length counts_map default_count items blocks :
  Forall2 (block_ok counts_map default_count) items blocks ->
  length (concat blocks)
  = sum_list ((fun item =>
                 Z.to_nat (resolve_count counts_map default_count item.1))
              <$> items).
Proof.
  induction 1 as [|item block items blocks Hblock _ IH]; [done|].
  simpl. rewrite length_app, IH. f_equal.
  unfold block_ok in Hblock.
  by rewrite <- (Forall2_length _ _ _ Hblock), length_range.
Qed.

Lemma ids_for_nonpos counts_map default_count label items :
  (resolve_count counts_map default_count label <= 0)%Z ->
  ids_for counts_map default_count label items = [].
Proof.
  intros Hneg. induction items as [|item items IH]; [done|].
  rewrite ids_for_cons, IH, range_nonpos by done.
  by destruct (String.eqb item.1 label).
Qed.

(** X4.  [generate_cypher_for_nodes] never raises; the number of statements
    it returns is the sum, over the node types, of the resolved count of the
    type, a negative count counting as zero; and the keys of the returned
    [node_ids] are exactly the labels of [nodes_dict], whatever their counts:
    a label with count zero or below is a key with an empty list. *)
Theorem X4_node_generator_output
    (nodes_dict : Dict.t node_info) (counts_map : gmap string Z)
    (default_count : Z) (r : rng) :
  exists statements node_ids r',
    generate_cypher_for_nodes nodes_dict counts_map default_count r
    = Ok ((statements, node_ids), r')
    /\ length statements
       = sum_list ((fun item =>
                      Z.to_nat (resolve_count counts_map default_count item.1))
                   <$> nodes_dict)
    /\ (forall label,
          is_Some (node_ids !! label) <-> label ∈ Dict.keys nodes_dict)
    /\ (forall label,
          label ∈ Dict.keys nodes_dict ->
          (resolve_count counts_map default_count label <= 0)%Z ->
          node_ids !! label = Some []).
Proof.
  destruct (generate_cypher_for_nodes_ok nodes_dict counts_map default_count r)
    as (blocks & node_ids & n & Hrun & Hblocks & Hids).
  exists (concat blocks), node_ids, (advance n r). split; [done|].
  split; [by eapply blocks_length|]. split.
  - intros label. rewrite Hids.
    destruct (decide (label ∈ Dict.keys nodes_dict)) as [Hin|Hnin].
    + split; [done | eauto].
    + split; [by intros [? ?] | done].
  - intros label Hin Hneg. rewrite Hids, decide_True by done.
    by rewrite ids_for_nonpos.
Qed.

(** ** Identifiers of different labels *)

Lemma pretty_N_char_no_underscore d : Ascii.eqb "_" (pretty_N_char d) = false.
Proof. unfold pretty_N_char. by repeat case_match. Qed.

Lemma pretty_N_go_no_underscore x s :
  Py.contains "_" s = false -> Py.contains "_" (pretty_N_go x s) = false.
Proof.
  revert s. induction (N.lt_wf_0 x) as [x _ IH]; intros s Hs.
  assert (x = 0 \/ 0 < x)%N as [->|Hpos] by lia.
  - by rewrite pretty_N_go_0.
  - rewrite pretty_N_go_step by done. apply IH; [by apply N.div_lt|].
    cbn [Py.contains]. by rewrite pretty_N_char_no_underscore, Hs.
Qed.

Lemma pretty_N_no_underscore (x : N) : Py.contains "_" (pretty x) = false.
Proof.
  unfold pretty, pretty_N. destruct (decide (x = 0%N)); [done|].
  by apply pretty_N_go_no_underscore.
Qed.

Lemma pretty_Z_no_underscore (z : Z) : Py.contains "_" (pretty z) = false.
Proof.
  destruct z as [|p|p]; [done | apply pretty_N_no_underscore |].
  unfold pretty, pretty_Z. rewrite contains_app.
  change (pretty p) with (pretty (N.pos p)).
  by rewrite pretty_N_no_underscore.
Qed.

Lemma app_underscore_inj l l' d d' :
  Py.contains "_" d = false -> Py.contains "_" d' = false ->
  l +:+ "_" +:+ d = l' +:+ "_" +:+ d' -> l = l' /\ d = d'.
Proof.
  intros Hd Hd'. revert l'.
  induction l as [|c l IH]; intros [|c' l'] H.
  - change (String "_" d = String "_" d') in H. by injection H as ->.
  - change (String "_" d = String c' (l' +:+ "_" +:+ d')) in H.
    injection H as <- ->. rewrite contains_app in Hd. simpl in Hd.
    by rewrite orb_true_r in Hd.
  - change (String c (l +:+ "_" +:+ d) = String "_" d') in H.
    injection H as -> <-. rewrite contains_app in Hd'. simpl in Hd'.
    by rewrite orb_true_r in Hd'.
  - change (String c (l +:+ "_" +:+ d) = String c' (l' +:+ "_" +:+ d')) in H.
    injection H as -> H. by destruct (IH _ H) as [-> ->].
Qed.

Lemma node_id_of_inj2 l l' i i' :
  node_id_of l i = node_id_of l' i' -> l = l' /\ i = i'.
Proof.
  intros H. apply app_underscore_inj in H as [-> H];
    [|apply pretty_Z_no_underscore..].
  split; [done|]. by apply pretty_Z_inj in H.
Qed.

Lemma ids_for_form counts_map default_count label items node_id :
  node_id ∈ ids_for counts_map default_count label items ->
  exists i,
    node_id = node_id_of label i
    /\ (0 <= i < resolve_count counts_map default_count label)%Z.
Proof.
  induction items as [|item items IH]; [by intros H; apply elem_of_nil in H|].
  rewrite ids_for_cons. intros [Hin|Hin]%elem_of_app; [|by apply IH].
  destruct (String.eqb item.1 label); [|by apply elem_of_nil in Hin].
  apply list_elem_of_fmap in Hin as (i & -> & Hi). exists i. split; [done|].
  unfold Py.range in Hi. apply list_elem_of_fmap in Hi as (j & -> & Hj).
  apply elem_of_seq in Hj. lia.
Qed.

(** X5.  In the [node_ids] that [generate_cypher_for_nodes] returns, every
    identifier listed under a label is [label_i] for an index [i] from 0
    below the resolved count of the label, and no identifier is listed under
    two different labels: the label and the index can be read back from the
    identifier, the index being written in digits only. *)
Theorem X5_identifiers_across_labels
    (nodes_dict : Dict.t node_info) (counts_map : gmap string Z)
    (default_count : Z) (r : rng) :
  exists statements node_ids r',
    generate_cypher_for_nodes nodes_dict counts_map default_count r
    = Ok ((statements, node_ids), r')
    /\ (forall label node_id,
          node_id ∈ ids_of node_ids label ->
          exists i,
            node_id = label +:+ "_" +:+ pretty i
            /\ (0 <= i < resolve_count counts_map default_count label)%Z)
    /\ (forall label1 label2 node_id,
          node_id ∈ ids_of node_ids label1 ->
          node_id ∈ ids_of node_ids label2 ->
          label1 = label2)
    /\ (forall (label1 label2 : string) (i1 i2 : Z),
          label1 +:+ "_" +:+ pretty i1 = label2 +:+ "_" +:+ pretty i2 ->
          label1 = label2 /\ i1 = i2).
Proof.
  destruct (generate_cypher_for_nodes_ok nodes_dict counts_map default_count r)
    as (blocks & node_ids & n & Hrun & _ & Hids).
  exists (concat blocks), node_ids, (advance n r). split; [done|].
  assert (Hform : forall label node_id,
    node_id ∈ ids_of node_ids label ->
    exists i, node_id = node_id_of label i
      /\ (0 <= i < resolve_count counts_map default_count label)%Z).
  { intros label node_id. unfold ids_of. rewrite Hids.
    destruct (decide (label ∈ Dict.keys nodes_dict));
      [apply ids_for_form | by intros H; apply elem_of_nil in H]. }
  split; [exact Hform|]. split.
  - intros label1 label2 node_id H1 H2.
    destruct (Hform _ _ H1) as (i1 & -> & _).
    destruct (Hform _ _ H2) as (i2 & Heq & _).
    by apply node_id_of_inj2 in Heq as [-> _].
  - intros label1 label2 i1 i2. apply node_id_of_inj2.
Qed.

(** ** The relationship generator as a whole *)

Lemma outcome_statements_bound node_ids counts_map default_count rel o :
  outcome_ok node_ids counts_map default_count rel o ->
  (length (outcome_statements rel o)
   <= Z.to_nat (resolve_count counts_map default_count (rel_internal rel)))%nat.
Proof.
  unfold outcome_ok.
  destruct (node_ids !! rel_start rel) as [ps|]; [|intros ->; simpl; lia].
  destruct (node_ids !! rel_end rel) as [pe|]; [|intros ->; simpl; lia].
  destruct (is_nil ps || is_nil pe).
  - intros ->. simpl. rewrite skipped_statements. simpl. lia.
  - intros (l & -> & <- & Hall). unfold outcome_statements.
    rewrite <- (sampled_statements_count _ _ rel.2 l Hall).
    apply Nat.le_add_r.
Qed.

Lemma trace_statements_bound node_ids counts_map default_count rels tr :
  Forall2 (outcome_ok node_ids counts_map default_count) rels tr ->
  (length (concat (zip_with outcome_statements rels tr))
   <= sum_list ((fun rel =>
                   Z.to_nat (resolve_count counts_map default_count
                               (rel_internal rel))) <$> rels))%nat.
Proof.
  induction 1 as [|rel o rels tr Hok _ IH]; [done|].
  change (length (outcome_statements rel o
                    ++ concat (zip_with outcome_statements rels tr))
          <= Z.to_nat (resolve_count counts_map default_count
                         (rel_internal rel))
             + sum_list ((fun rel =>
                            Z.to_nat (resolve_count counts_map default_count
                                        (rel_internal rel))) <$> rels))%nat.
  rewrite length_app. apply Nat.add_le_mono; [|exact IH].
  by eapply outcome_statements_bound.
Qed.

(** X6.  [generate_cypher_for_relationships] never raises, for any
    [node_ids]; it returns at most as many statements as the resolved counts
    of the relationship types add up to, a negative count counting as zero;
    and no statement it returns links an identifier to itself. *)
Theorem X6_relationship_generator_output
    (rels : list relationship) (node_ids : gmap string (list string))
    (counts_map : gmap string Z) (default_count : Z) (r : rng) :
  exists statements r',
    generate_cypher_for_relationships rels node_ids counts_map default_count r
    = Ok (statements, r')
    /\ (length statements
        <= sum_list ((fun rel =>
                        Z.to_nat (resolve_count counts_map default_count
                                    (rel_internal rel))) <$> rels))%nat
    /\ forall stmt, stmt ∈ statements ->
       exists s_node ext e_node,
         stmt = "CREATE (" +:+ s_node +:+ ")-[:" +:+ ext +:+ "]->("
                  +:+ e_node +:+ ");"
         /\ s_node <> e_node.
Proof.
  destruct (generate_relationships_ok rels node_ids counts_map default_count r)
    as (tr & n & _ & Hgen & Hall).
  eexists _, _. split; [exact Hgen|].
  split; [by eapply trace_statements_bound|].
  intros stmt Hstmt.
  destruct (trace_statement_endpoints _ _ _ _ _ _ Hall Hstmt)
    as (rel & s_node & e_node & _ & -> & _ & _ & Hne).
  by exists s_node, (rel_external rel), e_node.
Qed.

Lemma disjoint_no_self_loops possible_starts possible_ends l :
  (forall x, x ∈ possible_starts -> x ∈ possible_ends -> False) ->
  Forall (sampled_from possible_starts possible_ends) l ->
  self_loops l = 0%nat.
Proof.
  intros Hdisj. unfold self_loops.
  induction 1 as [|a l (s_node & e_node & -> & Hs & He) _ IH]; [done|].
  rewrite filter_cons. simpl.
  destruct (String.eqb_spec s_node e_node) as [->|_].
  - destruct (Hdisj _ Hs He).
  - destruct (decide (false = true)); [done | exact IH].
Qed.

(** X7.  For a relationship type with requested count [M], not negative,
    whose start and end labels have non-empty identifier lists with no
    identifier in common, no attempt is a self-loop and the generator emits
    exactly [M] statements for the type. *)
Theorem X7_disjoint_lists_exact_count
    (rels : list relationship) (node_ids : gmap string (list string))
    (counts_map : gmap string Z) (default_count : Z) (r : rng)
    (i : nat) (rel : relationship) (M : Z) :
  rels !! i = Some rel ->
  resolve_count counts_map default_count (rel_internal rel) = M ->
  (0 <= M)%Z ->
  ids_of node_ids (rel_start rel) <> [] ->
  ids_of node_ids (rel_end rel) <> [] ->
  (forall x, x ∈ ids_of node_ids (rel_start rel) ->
             x ∈ ids_of node_ids (rel_end rel) -> False) ->
  exists tr r' l,
    trace_relationships rels node_ids counts_map default_count r = Ok (tr, r')
    /\ generate_cypher_for_relationships rels node_ids counts_map
         default_count r
       = Ok (concat (zip_with outcome_statements rels tr), r')
    /\ tr !! i = Some (Attempts l)
    /\ self_loops l = 0%nat
    /\ Z.of_nat (length (outcome_statements rel (Attempts l))) = M.
Proof.
  intros Hi HM Hpos Hs He Hdisj.
  destruct (generate_relationships_ok rels node_ids counts_map default_count r)
    as (tr & n & Htr & Hgen & Hall).
  destruct (Forall2_lookup_l _ _ _ _ _ Hall Hi) as (o & Ho & Hok).
  destruct (outcome_declared _ _ _ _ _ Hok Hs He) as (l & -> & Hlen & Hfrom).
  exists tr, (advance n r), l. split; [done|]. split; [done|].
  split; [done|].
  pose proof (disjoint_no_self_loops _ _ _ Hdisj Hfrom) as Hloops.
  split; [done|].
  pose proof (sampled_statements_count _ _ rel.2 l Hfrom).
  rewrite HM in Hlen. unfold outcome_statements. lia.
Qed.

Lemma X7_witness :
  exists tr r' l,
    trace_relationships [("Knows", "A", "B", "knows")]
      {[ "A" := ["A_0"]; "B" := ["B_0"; "B_1"] ]} ∅ 3%Z (Rng (fun n => n) 0)
    = Ok (tr, r')
    /\ generate_cypher_for_relationships [("Knows", "A", "B", "knows")]
         {[ "A" := ["A_0"]; "B" := ["B_0"; "B_1"] ]} ∅ 3%Z (Rng (fun n => n) 0)
       = Ok (concat (zip_with outcome_statements
                       [("Knows", "A", "B", "knows")] tr), r')
    /\ tr !! 0%nat = Some (Attempts l)
    /\ self_loops l = 0%nat
    /\ Z.of_nat (length (outcome_statements ("Knows", "A", "B", "knows")
                           (Attempts l))) = 3%Z.
Proof.
  apply (X7_disjoint_lists_exact_count [("Knows", "A", "B", "knows")]
           {[ "A" := ["A_0"]; "B" := ["B_0"; "B_1"] ]} ∅ 3%Z
           (Rng (fun n => n) 0) 0%nat ("Knows", "A", "B", "knows") 3%Z).
  - reflexivity.
  - reflexivity.
  - lia.
  - vm_compute. discriminate.
  - vm_compute. discriminate.
  - intros x Hs He.
    change (ids_of _ (rel_start _)) with ["A_0"] in Hs.
    change (ids_of _ (rel_end _)) with ["B_0"; "B_1"] in He.
    apply list_elem_of_singleton in Hs as ->.
    apply elem_of_cons in He as [He|He]; [discriminate He|].
    apply list_elem_of_singleton in He. discriminate He.
Defined.

Lemma ids_for_nonempty counts_map default_count label items :
  label ∈ Dict.keys items ->
  (0 < resolve_count counts_map default_count label)%Z ->
  ids_for counts_map default_count label items <> [].
Proof.
  intros Hin Hpos. induction items as [|item items IH].
  - by apply elem_of_nil in Hin.
  - rewrite ids_for_cons.
    destruct (String.eqb_spec item.1 label) as [Heq|Hne].
    + unfold Py.range.
      destruct (Z.to_nat (resolve_count counts_map default_count label))
        as [|n] eqn:E; [lia | done].
    + apply elem_of_cons in Hin as [->|Hin]; [done|]. simpl. by apply IH.
Qed.

(** X8.  The two generators in sequence, as the driver calls them: for a
    relationship type between two different declared node labels that both
    have a positive resolved node count, every one of the [M] attempts
    ([M] the resolved count of the type, not negative) yields a statement:
    identifiers of different labels are never identical, so exactly [M]
    statements are emitted for the type. *)
Theorem X8_distinct_labels_exact_count
    (nodes_dict : Dict.t node_info) (counts_map : gmap string Z)
    (default_nodes default_edges : Z) (rels : list relationship) (r : rng)
    (i : nat) (rel : relationship) (M : Z) :
  rels !! i = Some rel ->
  rel_start rel <> rel_end rel ->
  rel_start rel ∈ Dict.keys nodes_dict ->
  rel_end rel ∈ Dict.keys nodes_dict ->
  (0 < resolve_count counts_map default_nodes (rel_start rel))%Z ->
  (0 < resolve_count counts_map default_nodes (rel_end rel))%Z ->
  resolve_count counts_map default_edges (rel_internal rel) = M ->
  (0 <= M)%Z ->
  exists node_statements node_ids r1 tr r2 l,
    generate_cypher_for_nodes nodes_dict counts_map default_nodes r
    = Ok ((node_statements, node_ids), r1)
    /\ trace_relationships rels node_ids counts_map default_edges r1
       = Ok (tr, r2)
    /\ generate_cypher_for_relationships rels node_ids counts_map
         default_edges r1
       = Ok (concat (zip_with outcome_statements rels tr), r2)
    /\ tr !! i = Some (Attempts l)
    /\ Z.of_nat (length (outcome_statements rel (Attempts l))) = M.
Proof.
  intros Hi Hne Hs He Hns Hne' HM Hpos.
  destruct (generate_cypher_for_nodes_ok nodes_dict counts_map default_nodes r)
    as (blocks & node_ids & n & Hrun & _ & Hids).
  destruct (generate_relationships_ok rels node_ids counts_map default_edges
              (advance n r)) as (tr & m & Htr & Hgen & Hall).
  destruct (Forall2_lookup_l _ _ _ _ _ Hall Hi) as (o & Ho & Hok).
  assert (Hstart : ids_of node_ids (rel_start rel)
                   = ids_for counts_map default_nodes (rel_start rel) nodes_dict).
  { unfold ids_of. by rewrite Hids, decide_True. }
  assert (Hend : ids_of node_ids (rel_end rel)
                 = ids_for counts_map default_nodes (rel_end rel) nodes_dict).
  { unfold ids_of. by rewrite Hids, decide_True. }
  destruct (outcome_declared _ _ _ _ _ Hok) as (l & -> & Hlen & Hfrom).
  { rewrite Hstart. by apply ids_for_nonempty. }
  { rewrite Hend. by apply ids_for_nonempty. }
  exists (concat blocks), node_ids, (advance n r), tr, (advance m (advance n r)), l.
  split; [done|]. split; [done|]. split; [done|]. split; [done|].
  assert (Hloops : self_loops l = 0%nat).
  { eapply disjoint_no_self_loops; [|exact Hfrom].
    rewrite Hstart, Hend. intros x Hx1 Hx2.
    apply ids_for_form in Hx1 as (i1 & -> & _).
    apply ids_for_form in Hx2 as (i2 & Heq & _).
    apply node_id_of_inj2 in Heq as [Heq _]. done. }
  pose proof (sampled_statements_count _ _ rel.2 l Hfrom) as Hcount.
  rewrite HM in Hlen. unfold outcome_statements.
  rewrite Hloops, Nat.add_0_r in Hcount. rewrite Hcount. lia.
Qed.

Lemma X8_witness :
  exists node_statements node_ids r1 tr r2 l,
    generate_cypher_for_nodes
      [("A", NodeInfo "a" []); ("B", NodeInfo "b" [])] ∅ 2 (Rng (fun n => n) 0)
    = Ok ((node_statements, node_ids), r1)
    /\ trace_relationships [("R", "A", "B", "r")] node_ids ∅ 3%Z r1
       = Ok (tr, r2)
    /\ generate_cypher_for_relationships [("R", "A", "B", "r")] node_ids ∅
         3%Z r1
       = Ok (concat (zip_with outcome_statements [("R", "A", "B", "r")] tr), r2)
    /\ tr !! 0%nat = Some (Attempts l)
    /\ Z.of_nat (length (outcome_statements ("R", "A", "B", "r")
                           (Attempts l))) = 3%Z.
Proof.
  apply (X8_distinct_labels_exact_count
           [("A", NodeInfo "a" []); ("B", NodeInfo "b" [])] ∅ 2 3
           [("R", "A", "B", "r")] (Rng (fun n => n) 0) 0%nat
           ("R", "A", "B", "r") 3%Z).
  - reflexivity.
  - discriminate.
  - apply elem_of_cons. by left.
  - apply elem_of_cons. right. apply elem_of_cons. by left.
  - reflexivity.
  - reflexivity.
  - reflexivity.
  - lia.
Defined.

(** ** The driver *)

(** X9.  The statement lists of the driver.  Given the schema text and, when
    a count file is given, the rows read from it ([rows] is [None] when no
    count file is given), the driver computes its two lists of statements
    without raising: as many node statements as the resolved counts of the
    parsed node types add up to and at most as many relationship statements
    as the resolved counts of the parsed relationship types add up to
    (negative counts counting as zero); the counts come from the rows when a
    row gives one, and otherwise from [-n] and [-e], which are 4 when not
    given.  Opening and reading the files, and what is printed besides the
    statements, are not part of the statement. *)
Theorem X9_main_statement_counts
    (schema_text : string) (nodes edges : option Z)
    (rows : option (list (list string))) (r : rng) :
  exists nodes_dict rels counts_map node_statements rel_statements r',
    parse_pg_schema schema_text = Ok (nodes_dict, rels)
    /\ match rows with
       | Some rows => read_csv_counts (Some rows)
       | None => Ok ∅
       end = Ok counts_map
    /\ main schema_text nodes edges (Some <$> rows) r
       = Ok ((node_statements, rel_statements), r')
    /\ length node_statements
       = sum_list ((fun item =>
                      Z.to_nat (resolve_count counts_map (default 4%Z nodes)
                                  item.1)) <$> nodes_dict)
    /\ (length rel_statements
        <= sum_list ((fun rel =>
                        Z.to_nat (resolve_count counts_map (default 4%Z edges)
                                    (rel_internal rel))) <$> rels))%nat.
Proof.
  destruct (parse_pg_schema_total schema_text) as [[nodes_dict rels] Hparse].
  assert (Hcsv : exists m,
    match rows with
    | Some rows => read_csv_counts (Some rows)
    | None => Ok ∅
    end = Ok m).
  { destruct rows as [rows|]; [apply read_csv_counts_total | by eexists]. }
  destruct Hcsv as [counts_map Hcsv].
  destruct (generate_cypher_for_nodes_ok nodes_dict counts_map
              (default 4%Z nodes) r)
    as (blocks & node_ids & n & Hnodes & Hblocks & _).
  destruct (generate_relationships_ok rels node_ids counts_map
              (default 4%Z edges) (advance n r))
    as (tr & m & _ & Hgen & Hall).
  exists nodes_dict, rels, counts_map, (concat blocks),
    (concat (zip_with outcome_statements rels tr)), (advance m (advance n r)).
  split; [done|]. split; [done|]. split.
  - assert (Hlift :
      match Some <$> rows with
      | Some file => lift (read_csv_counts file)
      | None => mret ∅
      end r = Ok (counts_map, r)).
    { destruct rows as [rows|].
      - change (lift (read_csv_counts (Some rows)) r = Ok (counts_map, r)).
        unfold lift. by rewrite Hcsv.
      - by injection Hcsv as <-. }
    unfold main. monad_unfold. rewrite Hparse, Hlift, Hnodes, Hgen. done.
  - split; [by eapply blocks_length | by eapply trace_statements_bound].
Qed.

(** ** Relationship declarations *)

Lemma match_plus_fails cls group p s :
  head_fails cls s -> Re.match_here (Re.Plus cls group :: p) s = None.
Proof.
  destruct s as [|ch s]; [done|]. simpl. by intros ->.
Qed.

(** A repetition followed by a non-empty repetition of another class fails
    when what follows the repeated characters starts with a character of
    neither class. *)
Lemma star_then_plus_fails cls cls2 group p ws rest :
  all_chars cls ws = true ->
  (forall ch, cls ch = true -> cls2 ch = false) ->
  head_fails cls rest -> head_fails cls2 rest ->
  Re.star cls (Re.match_here (Re.Plus cls2 group :: p)) (ws +:+ rest) = None.
Proof.
  intros Hws Hcls Hrest Hrest2. induction ws as [|ch ws IH].
  - change ("" +:+ rest) with rest.
    destruct rest as [|c0 tail]; [done|]. simpl in Hrest, Hrest2.
    cbn [Re.star]. rewrite Hrest.
    by rewrite (match_plus_fails cls2 group p (String c0 tail)).
  - apply andb_prop in Hws as [Hch Hws].
    change (String ch ws +:+ rest) with (String ch (ws +:+ rest)).
    cbn [Re.star]. rewrite Hch, (IH Hws).
    rewrite (match_plus_fails cls2 group p); [done|]. simpl. auto.
Qed.

Lemma search_skip c p pre rest :
  Py.contains c pre = false ->
  Re.search (Re.Lit c :: p) (pre +:+ rest) = Re.search (Re.Lit c :: p) rest.
Proof.
  induction pre as [|ch pre IH]; [done|].
  cbn [Py.contains]. intros [Hc Hpre]%orb_false_elim.
  change (String ch pre +:+ rest) with (String ch (pre +:+ rest)).
  rewrite search_cons. cbn [Re.match_here].
  rewrite Ascii.eqb_sym, Hc. auto.
Qed.

Lemma word_no_lparen w : all_chars Py.isword w = true -> Py.contains "(" w = false.
Proof. intros H. by apply (all_chars_contains Py.isword). Qed.

Lemma space_no_lparen w : all_chars Py.isspace w = true -> Py.contains "(" w = false.
Proof. intros H. by apply (all_chars_contains Py.isspace). Qed.

Section RelationshipLine.

Variables ws1 ws2 s ws3 ws4 ws5 i ws6 ws7 e ws8 ws9 ws10 t ws11 : string.
Hypothesis Hws1 : all_chars Py.isspace ws1 = true.
Hypothesis Hws2 : all_chars Py.isspace ws2 = true.
Hypothesis Hws3 : all_chars Py.isspace ws3 = true.
Hypothesis Hws4 : all_chars Py.isspace ws4 = true.
Hypothesis Hws5 : all_chars Py.isspace ws5 = true.
Hypothesis Hws6 : all_chars Py.isspace ws6 = true.
Hypothesis Hws7 : all_chars Py.isspace ws7 = true.
Hypothesis Hws8 : all_chars Py.isspace ws8 = true.
Hypothesis Hws9 : all_chars Py.isspace ws9 = true.
Hypothesis Hws10 : all_chars Py.isspace ws10 = true.
Hypothesis Hws11 : all_chars Py.isspace ws11 = true.
Hypothesis Hs : all_chars Py.isword s = true.
Hypothesis Hi : all_chars Py.isword i = true.
Hypothesis He : all_chars Py.isword e = true.
Hypothesis Ht : all_chars Py.isword t = true.
Hypothesis Hs_ne : s <> "".
Hypothesis Hi_ne : i <> "".
Hypothesis He_ne : e <> "".
Hypothesis Ht_ne : t <> "".

Local Abbreviation rline :=
  (relationship_line ws1 ws2 s ws3 ws4 ws5 i ws6 ws7 e ws8 ws9 ws10 t ws11).

Lemma match_relationship_line :
  Re.match_here relationship_pattern rline = Some [s; i; e; t].
Proof using All.
  unfold relationship_line, relationship_pattern, s_, w_.
  rewrite match_lit_app.
  apply (match_star _ false _ _ _ [s; i; e; t] Hws1); [reflexivity|].
  rewrite match_lit_app.
  apply (match_star _ false _ _ _ [s; i; e; t] Hws2);
    [by apply head_fails_word|].
  apply (match_plus _ true _ _ _ [i; e; t] Hs Hs_ne);
    [by apply head_fails_after; auto using space_not_word|].
  apply (match_star _ false _ _ _ [i; e; t] Hws3); [reflexivity|].
  rewrite match_lit_app.
  apply (match_star _ false _ _ _ [i; e; t] Hws4); [reflexivity|].
  rewrite !match_lit_app.
  apply (match_star _ false _ _ _ [i; e; t] Hws5);
    [by apply head_fails_word|].
  apply (match_plus _ true _ _ _ [e; t] Hi Hi_ne);
    [by apply head_fails_after; auto using space_not_word|].
  apply (match_star _ false _ _ _ [e; t] Hws6); [reflexivity|].
  rewrite match_lit_app.
  apply (match_star _ false _ _ _ [e; t] Hws7);
    [by apply head_fails_word|].
  apply (match_plus _ true _ _ _ [t] He He_ne);
    [by apply head_fails_after; auto using space_not_word|].
  apply (match_star _ false _ _ _ [t] Hws8); [reflexivity|].
  rewrite !match_lit_app.
  apply (match_star _ false _ _ _ [t] Hws9); [reflexivity|].
  rewrite match_lit_app.
  apply (match_star _ false _ _ _ [t] Hws10);
    [by apply head_fails_word|].
  apply (match_plus _ true _ _ _ [] Ht Ht_ne);
    [by apply head_fails_after; auto using space_not_word|].
  apply (match_star _ false _ _ _ [] Hws11); [reflexivity|].
  rewrite match_lit. reflexivity.
Qed.

Lemma strip_relationship_line : Py.strip rline = rline.
Proof using All.
  unfold Py.strip. change (Py.lstrip rline) with rline.
  unfold relationship_line.
  do 26 apply rstrip_stable_app. by split.
Qed.

Lemma search_node_relationship_line : Re.search node_pattern rline = None.
Proof using All.
  unfold relationship_line, node_pattern, s_, w_.
  match goal with
  | |- Re.search _ (_ +:+ ?x) = _ => change ("(" +:+ x) with (String "(" x)
  end.
  rewrite search_cons, match_lit, match_star_unfold.
  rewrite star_then_plus_fails;
    [| done | apply space_not_word | reflexivity | reflexivity].
  cbn [mbind option_bind].
  repeat rewrite search_skip
    by first [ reflexivity | by apply space_no_lparen | by apply word_no_lparen ].
  match goal with
  | |- Re.search _ (_ +:+ ?x) = _ => change ("(" +:+ x) with (String "(" x)
  end.
  rewrite search_cons, match_lit, match_star_unfold.
  rewrite star_then_plus_fails;
    [| done | apply space_not_word | reflexivity | reflexivity].
  cbn [mbind option_bind].
  repeat rewrite search_skip
    by first [ reflexivity | by apply space_no_lparen | by apply word_no_lparen ].
  reflexivity.
Qed.

Lemma parse_relationship_line nodes_dict relationships_list :
  parse_line rline (nodes_dict, relationships_list)
  = Ok (nodes_dict, relationships_list ++ [(i, s, t, e)]).
Proof using All.
  rewrite parse_line_spec, strip_relationship_line.
  rewrite search_node_relationship_line.
  rewrite (search_here _ _ _ match_relationship_line).
  reflexivity.
Qed.

End RelationshipLine.

(** X10.  A relationship declaration
    [( : s ) - [ i : e ]->( : t )], with labels of word characters and any
    whitespace at the places where the pattern has [\s*], is recognized
    whatever that whitespace is: the line appends the tuple
    [(i, s, t, e)] to the relationship list, also when an equal tuple is
    already in the list, and leaves the node dictionary as it is. *)
Theorem X10_relationship_line_recognized
    (ws1 ws2 s ws3 ws4 ws5 i ws6 ws7 e ws8 ws9 ws10 t ws11 : string)
    (nodes_dict : Dict.t node_info) (relationships_list : list relationship) :
  all_chars Py.isspace ws1 = true -> all_chars Py.isspace ws2 = true ->
  all_chars Py.isspace ws3 = true -> all_chars Py.isspace ws4 = true ->
  all_chars Py.isspace ws5 = true -> all_chars Py.isspace ws6 = true ->
  all_chars Py.isspace ws7 = true -> all_chars Py.isspace ws8 = true ->
  all_chars Py.isspace ws9 = true -> all_chars Py.isspace ws10 = true ->
  all_chars Py.isspace ws11 = true ->
  all_chars Py.isword s = true -> all_chars Py.isword i = true ->
  all_chars Py.isword e = true -> all_chars Py.isword t = true ->
  s <> "" -> i <> "" -> e <> "" -> t <> "" ->
  parse_line
    (relationship_line ws1 ws2 s ws3 ws4 ws5 i ws6 ws7 e ws8 ws9 ws10 t ws11)
    (nodes_dict, relationships_list)
  = Ok (nodes_dict, relationships_list ++ [(i, s, t, e)]).
Proof. intros. by apply parse_relationship_line. Qed.

Lemma X10_witness :
  parse_line
    (relationship_line " " "" "PostType" " " "  " "" "IsLocatedIn" "" " "
       "isLocatedIn" "" "" " " "PlaceType" "")
    ([], [("IsLocatedIn", "PostType", "PlaceType", "isLocatedIn")])
  = Ok ([], [("IsLocatedIn", "PostType", "PlaceType", "isLocatedIn")]
            ++ [("IsLocatedIn", "PostType", "PlaceType", "isLocatedIn")]).
Proof.
  apply X10_relationship_line_recognized; reflexivity || discriminate.
Defined.

(** ** Node declarations with a property block *)

Lemma head_fails_or cls w c tail :
  head_fails cls w -> cls c = false -> head_fails cls (w +:+ String c tail).
Proof. by destruct w. Qed.

Lemma no_rbrace_all s :
  Py.contains "}" s = false -> all_chars not_rbrace s = true.
Proof.
  induction s as [|c s IH]; [done|]. cbn [Py.contains all_chars].
  intros [Hc Hs]%orb_false_elim. rewrite (IH Hs), andb_true_r.
  unfold not_rbrace. by rewrite Ascii.eqb_sym, Hc.
Qed.

Section NodeLine.

Variables ws1 a ws2 ws3 b ws4 ws5 block ws6 : string.
Hypothesis Hws1 : all_chars Py.isspace ws1 = true.
Hypothesis Hws2 : all_chars Py.isspace ws2 = true.
Hypothesis Hws3 : all_chars Py.isspace ws3 = true.
Hypothesis Hws4 : all_chars Py.isspace ws4 = true.
Hypothesis Hws5 : all_chars Py.isspace ws5 = true.
Hypothesis Hws6 : all_chars Py.isspace ws6 = true.
Hypothesis Ha : all_chars Py.isword a = true.
Hypothesis Hb : all_chars Py.isword b = true.
Hypothesis Ha_ne : a <> "".
Hypothesis Hb_ne : b <> "".
Hypothesis Hblock : Py.contains "}" block = false.
Hypothesis Hblock_head : head_fails Py.isspace block.

Local Abbreviation nline := (node_line ws1 a ws2 ws3 b ws4 ws5 block ws6).

Lemma match_node_line :
  Re.match_here node_pattern nline = Some [a; b; block].
Proof using All.
  unfold node_line, node_pattern, s_, w_.
  rewrite match_lit_app.
  apply (match_star _ false _ _ _ [a; b; block] Hws1);
    [by apply head_fails_word|].
  apply (match_plus _ true _ _ _ [b; block] Ha Ha_ne);
    [by apply head_fails_after; auto using space_not_word|].
  apply (match_star _ false _ _ _ [b; block] Hws2); [reflexivity|].
  rewrite match_lit_app.
  apply (match_star _ false _ _ _ [b; block] Hws3);
    [by apply head_fails_word|].
  apply (match_plus _ true _ _ _ [block] Hb Hb_ne);
    [by apply head_fails_after; auto using space_not_word|].
  apply (match_star _ false _ _ _ [block] Hws4); [reflexivity|].
  rewrite match_lit_app.
  apply (match_star _ false _ _ _ [block] Hws5);
    [by apply head_fails_or|].
  apply (match_star _ true _ _ _ [] (no_rbrace_all _ Hblock)); [reflexivity|].
  apply (match_star_nothing _ false _ _ []); [reflexivity|].
  rewrite match_lit_app.
  apply (match_star _ false _ _ _ [] Hws6); [reflexivity|].
  rewrite match_lit. reflexivity.
Qed.

Lemma strip_node_line : Py.strip nline = nline.
Proof using All.
  unfold Py.strip. change (Py.lstrip nline) with nline.
  unfold node_line.
  do 13 apply rstrip_stable_app. by split.
Qed.

Lemma search_relationship_node_line :
  Py.contains "(" block = false ->
  Re.search relationship_pattern nline = None.
Proof using All.
  intros Hlparen. unfold node_line, relationship_pattern, s_.
  match goal with
  | |- Re.search _ (_ +:+ ?x) = _ => change ("(" +:+ x) with (String "(" x)
  end.
  rewrite search_cons, match_lit, match_star_unfold.
  rewrite star_then_lit_fails; [| done | done | |].
  2:{ by apply head_fails_word. }
  2:{ apply (head_fails_app Py.isword); [done | done |].
      intros ch Hch. destruct (Ascii.eqb_spec ch ":") as [->|]; [done | done]. }
  cbn [mbind option_bind].
  repeat rewrite search_skip
    by first [ reflexivity | by apply space_no_lparen | by apply word_no_lparen
             | exact Hlparen ].
  reflexivity.
Qed.

Lemma parse_node_line nodes_dict relationships_list :
  exists relationships_list',
    parse_line nline (nodes_dict, relationships_list)
    = Ok (Dict.set nodes_dict a (NodeInfo b (block_properties block)),
          relationships_list')
    /\ (Py.contains "(" block = false ->
        relationships_list' = relationships_list).
Proof using All.
  rewrite parse_line_spec, strip_node_line.
  rewrite (search_here _ _ _ match_node_line).
  eexists. split; [reflexivity|].
  intros Hlparen. by rewrite (search_relationship_node_line Hlparen).
Qed.

End NodeLine.

(** X11.  A node declaration [( a : b { block } )], with labels of word
    characters, any whitespace around the tokens, and a block without a
    closing brace, is recognized whatever that whitespace is: the line
    assigns to [a] the external label [b] and the properties read in the
    block (the first two tokens of each comma-separated entry that has at
    least two), replacing what the dictionary held for [a].  When the block
    holds no opening parenthesis the relationship list is left as it is. *)
Theorem X11_node_line_recognized
    (ws1 a ws2 ws3 b ws4 ws5 block ws6 : string)
    (nodes_dict : Dict.t node_info) (relationships_list : list relationship) :
  all_chars Py.isspace ws1 = true -> all_chars Py.isspace ws2 = true ->
  all_chars Py.isspace ws3 = true -> all_chars Py.isspace ws4 = true ->
  all_chars Py.isspace ws5 = true -> all_chars Py.isspace ws6 = true ->
  all_chars Py.isword a = true -> all_chars Py.isword b = true ->
  a <> "" -> b <> "" ->
  Py.contains "}" block = false ->
  head_fails Py.isspace block ->
  exists relationships_list',
    parse_line (node_line ws1 a ws2 ws3 b ws4 ws5 block ws6)
      (nodes_dict, relationships_list)
    = Ok (Dict.set nodes_dict a (NodeInfo b (block_properties block)),
          relationships_list')
    /\ (Py.contains "(" block = false ->
        relationships_list' = relationships_list).
Proof. intros. by apply parse_node_line. Qed.

Lemma X11_witness :
  exists relationships_list',
    parse_line
      (node_line " " "PostType" "" " " "Post" " " " "
         "name STRING,  post_id   INT , broken" "")
      ([("PostType", NodeInfo "Old" [])], [])
    = Ok (Dict.set [("PostType", NodeInfo "Old" [])] "PostType"
            (NodeInfo "Post"
               (block_properties "name STRING,  post_id   INT , broken")),
          relationships_list')
    /\ (Py.contains "(" "name STRING,  post_id   INT , broken" = false ->
        relationships_list' = []).
Proof.
  apply X11_node_line_recognized; reflexivity || discriminate.
Defined.

(** ** Reading back a written property block *)

Lemma token_char_inv c :
  token_char c = true ->
  Py.isspace c = false /\ Ascii.eqb c "," = false
  /\ Ascii.eqb c "}" = false /\ Ascii.eqb c "(" = false.
Proof.
  unfold token_char. intros H.
  repeat (apply andb_prop in H as [H ?]).
  repeat split; by apply negb_true_iff.
Qed.

Lemma token_no_char tok c :
  all_chars token_char tok = true -> token_char c = false ->
  Py.contains c tok = false.
Proof. intros. by apply (all_chars_contains token_char). Qed.

Lemma token_head tok rest :
  token tok -> head_fails Py.isspace (tok +:+ rest).
Proof.
  intros [Hne Htok]. destruct tok as [|c tok]; [done|].
  apply andb_prop in Htok as [Hc _]. simpl.
  by apply token_char_inv in Hc as [? _].
Qed.

Lemma rstrip_token tok : token tok -> Py.rstrip tok = tok /\ tok <> "".
Proof.
  intros [Hne Htok]. split; [|done]. clear Hne.
  induction tok as [|c tok IH]; [done|].
  apply andb_prop in Htok as [Hc Htok]. cbn [Py.rstrip].
  apply token_char_inv in Hc as [-> _]. by rewrite (IH Htok).
Qed.

Lemma lstrip_head s : head_fails Py.isspace s -> Py.lstrip s = s.
Proof. destruct s as [|c s]; [done|]. simpl. by intros ->. Qed.

Lemma strip_token tok : token tok -> Py.strip tok = tok.
Proof.
  intros Htok. unfold Py.strip.
  rewrite lstrip_head.
  - by apply rstrip_token.
  - pose proof (token_head tok "" Htok) as H. by destruct tok.
Qed.

Lemma split_word tok rest :
  token tok -> head_fails (fun c => negb (Py.isspace c)) rest ->
  Py.split (tok +:+ rest) = tok :: Py.split rest.
Proof.
  intros [Hne Htok] Hrest. induction tok as [|c tok IH]; [done|]. clear Hne.
  apply andb_prop in Htok as [Hc Htok].
  apply token_char_inv in Hc as [Hc _].
  change (String c tok +:+ rest) with (String c (tok +:+ rest)).
  cbn [Py.split]. rewrite Hc.
  destruct tok as [|c1 tok].
  - change ("" +:+ rest) with rest.
    destruct rest as [|c' rest]; [done|]. simpl in Hrest.
    apply negb_false_iff in Hrest. by rewrite Hrest.
  - change (String c1 tok +:+ rest) with (String c1 (tok +:+ rest)) in *.
    pose proof Htok as [Hc1 _]%andb_prop.
    apply token_char_inv in Hc1 as [Hc1 _]. rewrite Hc1.
    by rewrite IH.
Qed.

Lemma pair_entry_written n t :
  token n -> token t -> pair_entry (n +:+ " " +:+ t) = Some (n, t).
Proof.
  intros Hn Ht. unfold pair_entry.
  rewrite (split_word n _ Hn) by done.
  change (" " +:+ t) with (String " " t). cbn [Py.split].
  change (Py.isspace " ") with true. cbv iota.
  replace t with (t +:+ "") at 1
    by (clear; induction t as [|c t IH]; [done|];
        change (String c t +:+ "") with (String c (t +:+ "")); by rewrite IH).
  rewrite (split_word t "" Ht) by done.
  simpl. by rewrite !strip_token.
Qed.

Lemma strip_entry pre n t :
  all_chars Py.isspace pre = true -> token n -> token t ->
  Py.strip (pre +:+ n +:+ " " +:+ t) = n +:+ " " +:+ t.
Proof.
  intros Hpre Hn Ht. unfold Py.strip.
  assert (Hl : Py.lstrip (pre +:+ n +:+ " " +:+ t) = n +:+ " " +:+ t).
  { induction pre as [|c pre IH].
    - apply lstrip_head. by apply token_head.
    - apply andb_prop in Hpre as [Hc Hpre].
      change (String c pre +:+ ?x) with (String c (pre +:+ x)).
      cbn [Py.lstrip]. rewrite Hc. by apply IH. }
  rewrite Hl. do 2 apply rstrip_stable_app. by apply rstrip_token.
Qed.

Lemma split_on_none sep s :
  Py.contains sep s = false -> Py.split_on sep s = [s].
Proof.
  induction s as [|c s IH]; [done|]. cbn [Py.contains Py.split_on].
  intros [Hc Hs]%orb_false_elim. rewrite Ascii.eqb_sym, Hc. by rewrite IH.
Qed.

Lemma split_on_app sep s rest :
  Py.contains sep s = false ->
  Py.split_on sep (s +:+ String sep rest) = s :: Py.split_on sep rest.
Proof.
  induction s as [|c s IH].
  - intros _. change ("" +:+ String sep rest) with (String sep rest).
    cbn [Py.split_on]. by rewrite Ascii.eqb_refl.
  - cbn [Py.contains]. intros [Hc Hs]%orb_false_elim.
    change (String c s +:+ ?x) with (String c (s +:+ x)).
    cbn [Py.split_on]. rewrite Ascii.eqb_sym, Hc. by rewrite IH.
Qed.

Lemma split_on_join pre e es :
  Py.contains "," pre = false ->
  Forall (fun x => Py.contains "," x = false) (e :: es) ->
  Py.split_on "," (pre +:+ Py.join ", " (e :: es))
  = (pre +:+ e) :: ((fun x => " " +:+ x) <$> es).
Proof.
  revert pre e. induction es as [|e2 es IH]; intros pre e Hpre Hall.
  - apply Forall_cons in Hall as [He _]. simpl.
    apply split_on_none. by rewrite contains_app, Hpre, He.
  - apply Forall_cons in Hall as [He Hall].
    change (Py.join ", " (e :: e2 :: es))
      with (e +:+ String "," (" " +:+ Py.join ", " (e2 :: es))).
    rewrite <- string_app_assoc, split_on_app
      by (by rewrite contains_app, Hpre, He).
    by rewrite IH.
Qed.

Lemma entry_no_comma n t :
  token n -> token t -> Py.contains "," (n +:+ " " +:+ t) = false.
Proof.
  intros [_ Hn] [_ Ht].
  rewrite !contains_app.
  by rewrite (token_no_char n "," Hn eq_refl), (token_no_char t "," Ht eq_refl).
Qed.

Lemma block_properties_written props :
  Forall (fun p => token p.1 /\ token p.2) props ->
  block_properties (render_block props) = props.
Proof.
  intros Hall. destruct props as [|[n t] props]; [done|].
  apply Forall_cons in Hall as [[Hn Ht] Hall]. simpl in Hn, Ht.
  unfold block_properties, render_block. rewrite fmap_cons. cbn [fst snd].
  set (es := (fun p : string * string => p.1 +:+ " " +:+ p.2) <$> props).
  assert (Hnocomma : Forall (fun x => Py.contains "," x = false)
                       ((n +:+ " " +:+ t) :: es)).
  { apply Forall_cons. split; [by apply entry_no_comma|].
    apply Forall_fmap. eapply Forall_impl; [exact Hall|]. intros p [? ?].
    by apply entry_no_comma. }
  assert (Hhead : Py.is_empty
            (Py.strip (Py.join ", " ((n +:+ " " +:+ t) :: es))) = false).
  { assert (exists c rest, Py.isspace c = false
        /\ Py.join ", " ((n +:+ " " +:+ t) :: es) = String c rest)
      as (c & rest & Hc & ->).
    { destruct Hn as [Hne Hn]. destruct n as [|c n]; [done|].
      apply andb_prop in Hn as [Hc _].
      apply token_char_inv in Hc as [Hc _]. exists c.
      destruct es; eexists; split; try exact Hc; reflexivity. }
    unfold Py.strip. cbn [Py.lstrip]. rewrite Hc. cbn [Py.rstrip].
    by rewrite Hc. }
  rewrite Hhead.
  pose proof (split_on_join "" _ _ eq_refl Hnocomma) as Hsplit.
  change ("" +:+ ?x) with x in Hsplit. rewrite Hsplit. clear Hsplit.
  rewrite fmap_cons. cbn [omap list_omap].
  pose proof (strip_entry "" n t eq_refl Hn Ht) as Hstrip.
  change ("" +:+ ?x) with x in Hstrip.
  rewrite Hstrip, (pair_entry_written n t Hn Ht). clear Hstrip.
  f_equal. clear Hnocomma Hhead. subst es.
  induction Hall as [|[n' t'] props [Hn' Ht'] _ IH]; [done|].
  simpl in Hn', Ht'. rewrite !fmap_cons. cbn [omap list_omap fst snd].
  rewrite (strip_entry " " n' t' eq_refl Hn' Ht').
  rewrite (pair_entry_written n' t' Hn' Ht'). by rewrite IH.
Qed.

Lemma render_block_no_char c props :
  token_char c = false -> Ascii.eqb c "," = false -> Ascii.eqb c " " = false ->
  Forall (fun p => token p.1 /\ token p.2) props ->
  Py.contains c (render_block props) = false.
Proof.
  intros Hc Hcomma Hspace Hall. unfold render_block.
  assert (Hentry : forall p : string * string,
    token p.1 /\ token p.2 -> Py.contains c (p.1 +:+ " " +:+ p.2) = false).
  { intros p [[_ H1] [_ H2]]. rewrite !contains_app.
    rewrite (token_no_char _ c H1 Hc), (token_no_char _ c H2 Hc).
    cbn [Py.contains]. by rewrite Hspace. }
  induction Hall as [|p props Hp Hall IH]; [done|].
  rewrite fmap_cons. destruct props as [|p2 props].
  - simpl. by apply Hentry.
  - rewrite fmap_cons in *. cbv beta in *.
    change (Py.join ", " (?x :: ?y :: ?l))
      with (x +:+ ", " +:+ Py.join ", " (y :: l)).
    rewrite (contains_app c (p.1 +:+ " " +:+ p.2)), (Hentry p Hp).
    rewrite (contains_app c ", "), IH.
    cbn [Py.contains]. by rewrite Hcomma, Hspace.
Qed.

Lemma render_block_head props :
  Forall (fun p => token p.1 /\ token p.2) props ->
  head_fails Py.isspace (render_block props).
Proof.
  intros Hall. destruct Hall as [|[n t] props [Hn _] _]; [done|].
  unfold render_block. rewrite fmap_cons. cbn [fst snd].
  pose proof (token_head n (" " +:+ t) Hn) as Hhead.
  destruct ((fun p : string * string => p.1 +:+ " " +:+ p.2) <$> props).
  - exact Hhead.
  - change (Py.join ", " (?x :: ?y :: ?l))
      with (x +:+ ", " +:+ Py.join ", " (y :: l)).
    destruct Hn as [Hne _]. by destruct n.
Qed.

(** X12.  Reading back what was written: a node declaration whose block is
    [name type, name type, ...], for names and types that are tokens (not
    empty, without whitespace, comma, closing brace or opening parenthesis),
    parses to exactly these properties, in order, under the declared labels,
    whatever the whitespace around the tokens of the line; the relationship
    list is left as it is.  So does the block alone in
    [parse_properties]. *)
Theorem X12_written_properties_read_back
    (ws1 a ws2 ws3 b ws4 ws5 ws6 : string) (props : list (string * string))
    (nodes_dict : Dict.t node_info) (relationships_list : list relationship) :
  all_chars Py.isspace ws1 = true -> all_chars Py.isspace ws2 = true ->
  all_chars Py.isspace ws3 = true -> all_chars Py.isspace ws4 = true ->
  all_chars Py.isspace ws5 = true -> all_chars Py.isspace ws6 = true ->
  all_chars Py.isword a = true -> all_chars Py.isword b = true ->
  a <> "" -> b <> "" ->
  Forall (fun p => token p.1 /\ token p.2) props ->
  parse_properties (render_block props) = Ok props
  /\ parse_line
       (node_line ws1 a ws2 ws3 b ws4 ws5 (render_block props) ws6)
       (nodes_dict, relationships_list)
     = Ok (Dict.set nodes_dict a (NodeInfo b props), relationships_list).
Proof.
  intros Hws1 Hws2 Hws3 Hws4 Hws5 Hws6 Ha Hb Ha_ne Hb_ne Hprops.
  pose proof (block_properties_written props Hprops) as Hread.
  split.
  - rewrite parse_properties_entries. f_equal. exact Hread.
  - destruct (parse_node_line ws1 a ws2 ws3 b ws4 ws5 (render_block props) ws6
                Hws1 Hws2 Hws3 Hws4 Hws5 Hws6 Ha Hb Ha_ne Hb_ne
                (render_block_no_char "}" props eq_refl eq_refl eq_refl Hprops)
                (render_block_head props Hprops)
                nodes_dict relationships_list) as (rels' & Hrun & Hrels).
    rewrite Hrun, Hread, Hrels; [done|].
    by apply render_block_no_char.
Qed.

Lemma X12_witness :
  parse_properties (render_block [("name", "STRING"); ("post_id", "INT")])
  = Ok [("name", "STRING"); ("post_id", "INT")]
  /\ parse_line
       (node_line "" "PostType" "" " " "Post" " " ""
          (render_block [("name", "STRING"); ("post_id", "INT")]) "")
       ([], [])
     = Ok (Dict.set [] "PostType"
             (NodeInfo "Post" [("name", "STRING"); ("post_id", "INT")]), []).
Proof.
  apply X12_written_properties_read_back; try reflexivity; try discriminate.
  repeat constructor; discriminate.
Defined.

(** ** A label declared again *)

Lemma dict_get_set_ne {V} (d : Dict.t V) k k' v :
  k <> k' -> Dict.get (Dict.set d k v) k' = Dict.get d k'.
Proof.
  intros Hne. induction d as [|[k0 v0] d IH]; cbn [Dict.set Dict.get].
  - by destruct (String.eqb_spec k k').
  - destruct (String.eqb_spec k0 k) as [->|Hne0]; cbn [Dict.get].
    + by destruct (String.eqb_spec k k').
    + by rewrite IH.
Qed.

(** X13.  Dictionary semantics of node declarations: after a recognized
    node line for the label [a], the dictionary holds under [a] the
    declaration of this line, the other labels hold what they held, and the
    order of the labels is the order of their first declarations: a label
    declared before keeps its place, a new label goes to the end. *)
Theorem X13_redeclared_label
    (ws1 a ws2 ws3 b ws4 ws5 block ws6 : string)
    (nodes_dict : Dict.t node_info) (relationships_list : list relationship) :
  all_chars Py.isspace ws1 = true -> all_chars Py.isspace ws2 = true ->
  all_chars Py.isspace ws3 = true -> all_chars Py.isspace ws4 = true ->
  all_chars Py.isspace ws5 = true -> all_chars Py.isspace ws6 = true ->
  all_chars Py.isword a = true -> all_chars Py.isword b = true ->
  a <> "" -> b <> "" ->
  Py.contains "}" block = false ->
  head_fails Py.isspace block ->
  exists nodes_dict' relationships_list',
    parse_line (node_line ws1 a ws2 ws3 b ws4 ws5 block ws6)
      (nodes_dict, relationships_list)
    = Ok (nodes_dict', relationships_list')
    /\ Dict.get nodes_dict' a = Some (NodeInfo b (block_properties block))
    /\ (forall k, k <> a -> Dict.get nodes_dict' k = Dict.get nodes_dict k)
    /\ Dict.keys nodes_dict'
       = (if decide (a ∈ Dict.keys nodes_dict)
          then Dict.keys nodes_dict
          else Dict.keys nodes_dict ++ [a])
    /\ (NoDup (Dict.keys nodes_dict) -> NoDup (Dict.keys nodes_dict')).
Proof.
  intros Hws1 Hws2 Hws3 Hws4 Hws5 Hws6 Ha Hb Ha_ne Hb_ne Hblock Hhead.
  destruct (parse_node_line ws1 a ws2 ws3 b ws4 ws5 block ws6
              Hws1 Hws2 Hws3 Hws4 Hws5 Hws6 Ha Hb Ha_ne Hb_ne Hblock Hhead
              nodes_dict relationships_list) as (rels' & Hrun & _).
  eexists _, rels'. split; [exact Hrun|].
  split; [apply dict_get_set|].
  split; [intros k Hk; by apply dict_get_set_ne|].
  split; [apply dict_set_keys | apply dict_set_NoDup].
Qed.

Lemma X13_witness :
  exists nodes_dict' relationships_list',
    parse_line (node_line "" "A" "" " " "New" " " "" "x INT" "")
      ([("A", NodeInfo "Old" []); ("B", NodeInfo "Other" [])], [])
    = Ok (nodes_dict', relationships_list')
    /\ Dict.get nodes_dict' "A" = Some (NodeInfo "New" (block_properties "x INT"))
    /\ (forall k, k <> "A" ->
          Dict.get nodes_dict' k
          = Dict.get [("A", NodeInfo "Old" []); ("B", NodeInfo "Other" [])] k)
    /\ Dict.keys nodes_dict'
       = (if decide ("A" ∈ Dict.keys
                       [("A", NodeInfo "Old" []); ("B", NodeInfo "Other" [])])
          then Dict.keys [("A", NodeInfo "Old" []); ("B", NodeInfo "Other" [])]
          else Dict.keys [("A", NodeInfo "Old" []); ("B", NodeInfo "Other" [])]
               ++ ["A"])
    /\ (NoDup (Dict.keys [("A", NodeInfo "Old" []); ("B", NodeInfo "Other" [])])
        -> NoDup (Dict.keys nodes_dict')).
Proof.
  apply X13_redeclared_label; reflexivity || discriminate.
Defined.

(** ** Lines *)

Lemma split_on_nonempty sep s : Py.split_on sep s <> [].
Proof.
  destruct s as [|c s]; [done|]. cbn [Py.split_on].
  destruct (Ascii.eqb c sep); [done|]. by destruct (Py.split_on sep s).
Qed.

Lemma split_on_concat sep s rest :
  Py.split_on sep (s +:+ String sep rest)
  = Py.split_on sep s ++ Py.split_on sep rest.
Proof.
  induction s as [|c s IH].
  - change ("" +:+ String sep rest) with (String sep rest).
    cbn [Py.split_on]. by rewrite Ascii.eqb_refl.
  - change (String c s +:+ ?x) with (String c (s +:+ x)).
    cbn [Py.split_on]. rewrite IH.
    destruct (Ascii.eqb c sep); [done|].
    pose proof (split_on_nonempty sep s).
    by destruct (Py.split_on sep s).
Qed.

Lemma strip_blank s : all_chars Py.isspace s = true -> Py.strip s = "".
Proof.
  intros H. unfold Py.strip.
  assert (Py.lstrip s = "") as ->; [|done].
  induction s as [|c s IH]; [done|].
  apply andb_prop in H as [Hc Hs]. cbn [Py.lstrip]. rewrite Hc. auto.
Qed.

Lemma split_on_blank sep s :
  all_chars Py.isspace s = true ->
  Forall (fun l => all_chars Py.isspace l = true) (Py.split_on sep s).
Proof.
  induction s as [|c s IH]; [by repeat constructor|].
  cbn [all_chars]. intros [Hc Hs]%andb_prop. specialize (IH Hs).
  cbn [Py.split_on].
  destruct (Ascii.eqb c sep); [by constructor|].
  destruct (Py.split_on sep s) as [|w ws].
  { constructor; [cbn [all_chars]; by rewrite Hc | constructor]. }
  apply Forall_cons in IH as [Hw Hws]. constructor; [|done].
  cbn [all_chars]. by rewrite Hc, Hw.
Qed.

Lemma parse_blank_line line st :
  all_chars Py.isspace line = true -> parse_line line st = Ok st.
Proof.
  intros H. destruct st as [nodes rels].
  by rewrite parse_line_spec, (strip_blank _ H).
Qed.

Lemma parse_blank_lines lines st :
  Forall (fun l => all_chars Py.isspace l = true) lines ->
  for_each lines parse_line st = Ok st.
Proof.
  induction 1 as [|line lines Hline _ IH]; [done|].
  cbn [for_each]. monad_unfold. by rewrite (parse_blank_line _ _ Hline).
Qed.

Lemma contains_lstrip c s :
  Py.contains c s = false -> Py.contains c (Py.lstrip s) = false.
Proof.
  induction s as [|c0 s IH]; [done|]. cbn [Py.lstrip].
  destruct (Py.isspace c0); [|done].
  cbn [Py.contains]. intros [_ Hs]%orb_false_elim. auto.
Qed.

Lemma contains_rstrip c s :
  Py.contains c s = false -> Py.contains c (Py.rstrip s) = false.
Proof.
  induction s as [|c0 s IH]; [done|]. cbn [Py.rstrip Py.contains].
  intros [Hc Hs]%orb_false_elim.
  destruct (Py.isspace c0 && Py.is_empty (Py.rstrip s)); [done|].
  cbn [Py.contains]. by rewrite Hc, IH.
Qed.

(** X14.  The parser works line by line.  The result for a text followed
    by a newline and more text is the result for the text, continued with the
    lines of the rest; a whitespace-only stretch between two newlines (one
    blank line or several) changes nothing; and a line without an opening
    parenthesis changes nothing. *)
Theorem X14_parser_line_by_line :
  (forall text rest,
     parse_pg_schema (text +:+ String newline rest)
     = st ← parse_pg_schema text;
       for_each (Py.split_on newline rest) parse_line st)
  /\ (forall text blank rest,
        all_chars Py.isspace blank = true ->
        parse_pg_schema
          (text +:+ String newline (blank +:+ String newline rest))
        = parse_pg_schema (text +:+ String newline rest))
  /\ (forall line st,
        Py.contains "(" line = false -> parse_line line st = Ok st).
Proof.
  assert (Hcompose : forall text rest,
    parse_pg_schema (text +:+ String newline rest)
    = st ← parse_pg_schema text;
      for_each (Py.split_on newline rest) parse_line st).
  { intros text rest. unfold parse_pg_schema.
    by rewrite split_on_concat, for_each_result_app. }
  split; [exact Hcompose|]. split.
  - intros text blank rest Hblank. rewrite !Hcompose.
    destruct (parse_pg_schema text) as [st|]; [|done]. monad_unfold.
    rewrite split_on_concat, for_each_result_app. monad_unfold.
    by rewrite (parse_blank_lines _ _ (split_on_blank _ _ Hblank)).
  - intros line [nodes rels] Hline. rewrite parse_line_spec.
    assert (Hstrip : Py.contains "(" (Py.strip line) = false).
    { by apply contains_rstrip, contains_lstrip. }
    unfold node_pattern, relationship_pattern.
    rewrite !search_lit_absent by done.
    by destruct (Py.is_empty (Py.strip line)).
Qed.

(** ** What the generators read in the counts *)

Lemma for_each_gen_ext {A S} (l : list A) (body1 body2 : A -> S -> Gen S)
    (s : S) (r : rng) :
  (forall x, x ∈ l -> forall s r, body1 x s r = body2 x s r) ->
  for_each l body1 s r = for_each l body2 s r.
Proof.
  revert s r. induction l as [|x l IH]; intros s r Hext; [done|].
  cbn [for_each]. monad_unfold.
  rewrite (Hext x) by (apply elem_of_cons; by left).
  destruct (body2 x s r) as [[s' r']|]; [|done].
  apply IH. intros y Hy. apply Hext, elem_of_cons. by right.
Qed.

(** X15.  The generators read the count mapping and the default only
    through the resolved counts of the labels they generate: two settings
    that resolve to the same count for every node label give the same node
    statements and identifiers, and two settings that resolve to the same
    count for the internal label of every relationship type give the same
    relationship statements, from the same random source.  So a count for a
    label that is neither a node type nor a relationship type has no
    effect, and the default has no effect on a label that has a count. *)
Theorem X15_counts_only_for_generated_labels :
  (forall nodes_dict counts1 default1 counts2 default2 r,
     (forall label, label ∈ Dict.keys nodes_dict ->
        resolve_count counts1 default1 label
        = resolve_count counts2 default2 label) ->
     generate_cypher_for_nodes nodes_dict counts1 default1 r
     = generate_cypher_for_nodes nodes_dict counts2 default2 r)
  /\ (forall rels node_ids counts1 default1 counts2 default2 r,
        (forall rel, rel ∈ rels ->
           resolve_count counts1 default1 (rel_internal rel)
           = resolve_count counts2 default2 (rel_internal rel)) ->
        generate_cypher_for_relationships rels node_ids counts1 default1 r
        = generate_cypher_for_relationships rels node_ids counts2 default2 r)
  /\ (forall (counts_map : gmap string Z) default_count label other z,
        other <> label ->
        resolve_count (<[other := z]> counts_map) default_count label
        = resolve_count counts_map default_count label)
  /\ (forall (counts_map : gmap string Z) default1 default2 label z,
        counts_map !! label = Some z ->
        resolve_count counts_map default1 label
        = resolve_count counts_map default2 label).
Proof.
  split; [|split; [|split]].
  - intros nodes_dict counts1 default1 counts2 default2 r Hsame.
    unfold generate_cypher_for_nodes. apply for_each_gen_ext.
    intros [label info] Hin st r'. unfold node_type.
    rewrite Hsame; [done|]. apply list_elem_of_fmap. by exists (label, info).
  - intros rels node_ids counts1 default1 counts2 default2 r Hsame.
    unfold generate_cypher_for_relationships. apply for_each_gen_ext.
    intros [[[irel start_label] end_label] erel] Hin st r'. unfold rel_type.
    pose proof (Hsame _ Hin) as Heq. unfold rel_internal in Heq.
    cbn [fst] in Heq. by rewrite Heq.
  - intros counts_map default_count label other z Hne. unfold resolve_count.
    by rewrite lookup_insert_ne.
  - intros counts_map default1 default2 label z Hz. unfold resolve_count.
    by rewrite Hz.
Qed.
